(** * openqa_review.browser: fetch / cache / error-classification layer

    A shallow embedding of [openqa_review/browser.py].  Python strings are
    lists of code points, byte strings are lists of byte values, exceptions
    are values of an inductive type, and the methods of [Browser] are
    state-passing functions over the instance and the outside world (disk,
    network, log). *)

From Stdlib Require Import NArith ZArith List Bool String Ascii Lia.
From Stdlib Require Import SpecFloat DecimalString.
From stdpp Require Import gmap list.

Local Open Scope N_scope.
Local Set Warnings "-register-all".

(** ** Python values *)

(** [str]: a sequence of Unicode code points; [bytes]: a sequence of
    values below 256. *)
Abbreviation str := (list N) (only parsing).
Abbreviation bytes := (list N) (only parsing).

Definition lit (s : string) : str :=
  map N_of_ascii (list_ascii_of_string s).
Arguments lit s%_string : simpl never.

(** [ord c] for a one-character literal. *)
Definition ord (a : ascii) : N := N_of_ascii a.
Arguments ord a%_char : simpl never.

(** [s.replace(old, new)] for one-character [old] and [new]. *)
Definition replace (old new : N) (s : str) : str :=
  map (fun c => if c =? old then new else c) s.

(** [c in s] for a character [c]. *)
Definition contains (c : N) (s : str) : bool := existsb (N.eqb c) s.

Fixpoint str_eqb (a b : str) : bool :=
  match a, b with
  | [], [] => true
  | x :: a', y :: b' => (x =? y) && str_eqb a' b'
  | _, _ => false
  end.

(** [s.startswith(p)] *)
Fixpoint startswith (p s : str) : bool :=
  match p, s with
  | [], _ => true
  | x :: p', y :: s' => (x =? y) && startswith p' s'
  | _ :: _, [] => false
  end.

(** [sep.join(parts)] *)
Fixpoint join (sep : str) (parts : list str) : str :=
  match parts with
  | [] => []
  | [p] => p
  | p :: rest => p ++ sep ++ join sep rest
  end.

Definition dquote : str := [34].

(** JSON values as [json.loads] produces them: [dict] keeps insertion
    order, numbers are [int] or [float]. *)
Inductive json :=
| JNull
| JBool (b : bool)
| JInt (z : Z)
| JFloat (f : spec_float)
| JStr (s : str)
| JArr (items : list json)
| JObj (fields : list (str * json)).

(** Exceptions.  One constructor per class the module raises or meets;
    [OtherError] stands for any class outside the ones named here. *)
Inductive requests_class :=
| RequestException | HTTPError | ConnectionError | ProxyError | SSLError
| Timeout | ConnectTimeout | ReadTimeout | ChunkedEncodingError.

Inductive exn :=
| DownloadError (msg : str)
| CacheNotFoundError (msg : str)
| BugzillaError (url : str) (code message : json)
| BugNotFoundError (url : str) (code message : json)
| OSError (errno : Z)
| JSONDecodeError (msg : str)
| UnicodeEncodeError
| UnicodeDecodeError
| KeyError (key : str)
| TypeError
| StopIteration
| RequestsError (c : requests_class) (msg : str)
| OtherError (name msg : str).

Inductive result (A : Type) :=
| Ok (a : A)
| Raise (e : exn).
Arguments Ok {A} a.
Arguments Raise {A} e.

(** ** The UTF-8 codec (CPython's [stringlib/codecs.h]) *)
Module Utf8.

Definition is_surrogate (ch : N) : bool := (0xD800 <=? ch) && (ch <=? 0xDFFF).

(** One code point, [errors='strict']: a surrogate has no encoding. *)
Definition encode_char (ch : N) : option bytes :=
  if ch <? 0x80 then Some [ch]
  else if ch <? 0x0800 then
    Some [N.lor 0xC0 (N.shiftr ch 6); N.lor 0x80 (N.land ch 0x3F)]
  else if is_surrogate ch then None
  else if ch <? 0x10000 then
    Some [N.lor 0xE0 (N.shiftr ch 12);
          N.lor 0x80 (N.land (N.shiftr ch 6) 0x3F);
          N.lor 0x80 (N.land ch 0x3F)]
  else
    Some [N.lor 0xF0 (N.shiftr ch 18);
          N.lor 0x80 (N.land (N.shiftr ch 12) 0x3F);
          N.lor 0x80 (N.land (N.shiftr ch 6) 0x3F);
          N.lor 0x80 (N.land ch 0x3F)].

(** [s.encode('utf-8')] *)
Fixpoint encode (s : str) : result bytes :=
  match s with
  | [] => Ok []
  | ch :: t =>
    match encode_char ch with
    | None => Raise UnicodeEncodeError
    | Some bs =>
      match encode t with
      | Ok r => Ok (bs ++ r)
      | Raise e => Raise e
      end
    end
  end.

Definition is_continuation (ch : N) : bool := (0x80 <=? ch) && (ch <? 0xC0).

(** The decoding loop.  Each element of the result is a decoded code point
    or [None] for one undecodable subsequence, which is what the error
    handler is called on: [InvalidStart] covers one byte,
    [InvalidContinuation]{1,2,3} cover the 1, 2 or 3 bytes before the
    offending one, and an unexpected end of data covers everything left. *)
Fixpoint scan (bs : bytes) : list (option N) :=
  match bs with
  | [] => []
  | ch :: t1 =>
    if ch <? 0x80 then Some ch :: scan t1
    else if ch <? 0xE0 then
      if ch <? 0xC2 then None :: scan t1
      else
        match t1 with
        | [] => [None]
        | ch2 :: t2 =>
          if negb (is_continuation ch2) then None :: scan t1
          else Some (N.shiftl ch 6 + ch2 - (N.shiftl 0xC0 6 + 0x80)) :: scan t2
        end
    else if ch <? 0xF0 then
      match t1 with
      | [] => [None]
      | ch2 :: t2 =>
        if negb (is_continuation ch2)
           || (if ch2 <? 0xA0 then ch =? 0xE0 else ch =? 0xED)
        then None :: scan t1
        else
          match t2 with
          | [] => [None]
          | ch3 :: t3 =>
            if negb (is_continuation ch3) then None :: scan t2
            else Some (N.shiftl ch 12 + N.shiftl ch2 6 + ch3
                       - (N.shiftl 0xE0 12 + N.shiftl 0x80 6 + 0x80)) :: scan t3
          end
      end
    else if ch <? 0xF5 then
      match t1 with
      | [] => [None]
      | ch2 :: t2 =>
        if negb (is_continuation ch2)
           || (if ch2 <? 0x90 then ch =? 0xF0 else ch =? 0xF4)
        then None :: scan t1
        else
          match t2 with
          | [] => [None]
          | ch3 :: t3 =>
            if negb (is_continuation ch3) then None :: scan t2
            else
              match t3 with
              | [] => [None]
              | ch4 :: t4 =>
                if negb (is_continuation ch4) then None :: scan t3
                else Some (N.shiftl ch 18 + N.shiftl ch2 12 + N.shiftl ch3 6 + ch4
                           - (N.shiftl 0xF0 18 + N.shiftl 0x80 12
                              + N.shiftl 0x80 6 + 0x80)) :: scan t4
              end
          end
      end
    else None :: scan t1
  end.

Inductive errors := Strict | Replace | Ignore.

Fixpoint handle (h : errors) (items : list (option N)) : result str :=
  match items with
  | [] => Ok []
  | Some c :: t =>
    match handle h t with
    | Ok r => Ok (c :: r)
    | Raise e => Raise e
    end
  | None :: t =>
    match h with
    | Strict => Raise UnicodeDecodeError
    | Replace =>
      match handle h t with
      | Ok r => Ok (0xFFFD :: r)
      | Raise e => Raise e
      end
    | Ignore => handle h t
    end
  end.

(** [bs.decode('utf-8', errors)] *)
Definition decode (h : errors) (bs : bytes) : result str := handle h (scan bs).
Arguments decode h bs : simpl never.

End Utf8.

(** ** [urllib.parse]: quote and unquote *)
Module UrlParse.

Definition _ALWAYS_SAFE : bytes :=
  lit "ABCDEFGHIJKLMNOPQRSTUVWXYZabcdefghijklmnopqrstuvwxyz0123456789_.-~".

(** ['{:X}'.format(d)] for one hexadecimal digit [d < 16]. *)
Definition hex_upper (d : N) : N :=
  nth (N.to_nat d) (lit "0123456789ABCDEF") (ord "0").

(** ['%{:02X}'.format(b)] for a byte value. *)
Definition percent_hex (b : N) : str :=
  [ord "%"; hex_upper (b / 16); hex_upper (b mod 16)].

(** [_Quoter(safe).__missing__(b)], with [safe] the additional safe bytes. *)
Definition quoter (safe : bytes) (b : N) : str :=
  if contains b (_ALWAYS_SAFE ++ safe) then [b] else percent_hex b.

(** [quote_from_bytes(bs, safe)] with [safe] given as a [str]; the
    non-ASCII characters of [safe] are dropped.  When every byte is safe
    the bytes are decoded as they are. *)
Definition quote_from_bytes (bs : bytes) (safe : str) : result str :=
  match bs with
  | [] => Ok []
  | _ =>
    let safe := List.filter (fun c => c <? 128) safe in
    if forallb (fun b => contains b (_ALWAYS_SAFE ++ safe)) bs
    then Utf8.decode Utf8.Strict bs
    else Ok (concat (map (quoter safe) bs))
  end.

(** [quote(string, safe)] for a [str] argument. *)
Definition quote (string : str) (safe : str) : result str :=
  match string with
  | [] => Ok string
  | _ =>
    match Utf8.encode string with
    | Ok bs => quote_from_bytes bs safe
    | Raise e => Raise e
    end
  end.

(** [s.split(sep)] for a one-byte separator. *)
Fixpoint split (sep : N) (s : bytes) : list bytes :=
  match s with
  | [] => [[]]
  | c :: t =>
    if c =? sep then [] :: split sep t
    else
      match split sep t with
      | h :: r => (c :: h) :: r
      | [] => [[c]]
      end
  end.

(** Value of a character of [_hexdig]. *)
Definition hexval (c : N) : option N :=
  if (ord "0" <=? c) && (c <=? ord "9") then Some (c - ord "0")
  else if (ord "A" <=? c) && (c <=? ord "F") then Some (c - ord "A" + 10)
  else if (ord "a" <=? c) && (c <=? ord "f") then Some (c - ord "a" + 10)
  else None.

(** [_hextobyte[key]], [None] standing for [KeyError]: the keys are the
    two-character strings over [_hexdig]. *)
Definition _hextobyte (key : bytes) : option N :=
  match key with
  | [a; b] =>
    match hexval a, hexval b with
    | Some x, Some y => Some (16 * x + y)
    | _, _ => None
    end
  | _ => None
  end.

(** One iteration of the loop over [bits[1:]]. *)
Definition unquote_item (item : bytes) : bytes :=
  match _hextobyte (take 2 item) with
  | Some b => b :: drop 2 item
  | None => ord "%" :: item
  end.

(** [unquote_to_bytes(string)] for a [str] argument. *)
Definition unquote_to_bytes (string : str) : result bytes :=
  match string with
  | [] => Ok []
  | _ =>
    match Utf8.encode string with
    | Raise e => Raise e
    | Ok string =>
      match split (ord "%") string with
      | [] | [_] => Ok string
      | b0 :: items => Ok (b0 ++ concat (map unquote_item items))
      end
    end
  end.

(** The loop of [unquote] over [_asciire.split(string)]: every maximal run
    of characters below 128 is unquoted and decoded, everything between
    two runs is kept.  [run] holds the current run, reversed. *)
Definition unquote_run (h : Utf8.errors) (run : str) : result str :=
  match run with
  | [] => Ok []
  | _ =>
    match unquote_to_bytes (rev run) with
    | Ok bs => Utf8.decode h bs
    | Raise e => Raise e
    end
  end.

Fixpoint unquote_bits (h : Utf8.errors) (run : str) (s : str) : result str :=
  match s with
  | [] => unquote_run h run
  | c :: t =>
    if c <=? 0x7F then unquote_bits h (c :: run) t
    else
      match unquote_run h run with
      | Raise e => Raise e
      | Ok r =>
        match unquote_bits h [] t with
        | Ok r' => Ok (r ++ c :: r')
        | Raise e => Raise e
        end
      end
  end.

(** [unquote(string)] for a [str] argument, [encoding='utf-8'],
    [errors='replace']. *)
Definition unquote (string : str) : result str :=
  if negb (contains (ord "%") string) then Ok string
  else unquote_bits Utf8.Replace [] string.

(** [quote_plus(string, safe='')] for a [bytes] argument. *)
Definition quote_plus (string : bytes) : result str :=
  if negb (contains (ord " ") string) then quote_from_bytes string []
  else
    match quote_from_bytes string (lit " ") with
    | Ok q => Ok (replace (ord " ") (ord "+") q)
    | Raise e => Raise e
    end.

(** [urlencode(query, doseq=True)] for a list of pairs of [bytes]. *)
Fixpoint urlencode_items (query : list (bytes * bytes)) : result (list str) :=
  match query with
  | [] => Ok []
  | (k, v) :: rest =>
    match quote_plus k with
    | Raise e => Raise e
    | Ok k' =>
      match quote_plus v with
      | Raise e => Raise e
      | Ok v' =>
        match urlencode_items rest with
        | Raise e => Raise e
        | Ok l => Ok ((k' ++ lit "=" ++ v') :: l)
        end
      end
    end
  end.

Definition urlencode (query : list (bytes * bytes)) : result str :=
  match urlencode_items query with
  | Ok l => Ok (join (lit "&") l)
  | Raise e => Raise e
  end.

End UrlParse.

(** ** The codec between URLs and file names *)

(** [quote(url).replace("/", ":")] *)
Definition url_to_filename (url : str) : result str :=
  match UrlParse.quote url (lit "/") with
  | Ok q => Ok (replace (ord "/") (ord ":") q)
  | Raise e => Raise e
  end.

(** [unquote(name.replace(":", "/"))] *)
Definition filename_to_url (name : str) : result str :=
  UrlParse.unquote (replace (ord ":") (ord "/") name).


(** ** More of Python *)

(** [str(n)] for an [int]. *)
Definition str_of_int (z : Z) : str := lit (NilZero.string_of_int (Z.to_int z)).
Arguments str_of_int z : simpl never.

Definition endswith (p s : str) : bool := startswith (rev p) (rev s).

(** [p in s] for strings: substring test. *)
Fixpoint is_substring (p s : str) : bool :=
  startswith p s ||
  match s with
  | [] => false
  | _ :: t => is_substring p t
  end.

(** [s.replace(old, new)] for a non-empty [old]: the occurrences are
    replaced from left to right and do not overlap; [skip] counts the
    characters of the occurrence just replaced that are still to be
    passed over. *)
Fixpoint replace_from (old new : str) (skip : nat) (s : str) : str :=
  match s with
  | [] => []
  | c :: t =>
    match skip with
    | S k => replace_from old new k t
    | O =>
      if startswith old s
      then new ++ replace_from old new (length old - 1) t
      else c :: replace_from old new O t
    end
  end.

Definition replace_str (old new s : str) : str := replace_from old new 0 s.

(** [os.path.join(a, b)] of [posixpath]. *)
Definition os_path_join (a b : str) : str :=
  if startswith (lit "/") b then b
  else if (match a with [] => true | _ => false end) || endswith (lit "/") a
       then a ++ b
       else a ++ lit "/" ++ b.

(** [errno.ENOENT] *)
Definition ENOENT : Z := 2.

(** *** Exception classes and [isinstance] *)
Inductive cls :=
| cException | cDownloadError | cCacheNotFoundError
| cBugzillaError | cBugNotFoundError
| cOSError | cValueError | cJSONDecodeError
| cUnicodeError | cUnicodeEncodeError | cUnicodeDecodeError
| cLookupError | cKeyError | cTypeError | cStopIteration
| cRequests (c : requests_class)
| cOther (name : str).

Definition requests_class_eqb (a b : requests_class) : bool :=
  match a, b with
  | RequestException, RequestException | HTTPError, HTTPError
  | ConnectionError, ConnectionError | ProxyError, ProxyError
  | SSLError, SSLError | Timeout, Timeout | ConnectTimeout, ConnectTimeout
  | ReadTimeout, ReadTimeout | ChunkedEncodingError, ChunkedEncodingError => true
  | _, _ => false
  end.

Definition cls_eqb (a b : cls) : bool :=
  match a, b with
  | cException, cException | cDownloadError, cDownloadError
  | cCacheNotFoundError, cCacheNotFoundError | cBugzillaError, cBugzillaError
  | cBugNotFoundError, cBugNotFoundError | cOSError, cOSError
  | cValueError, cValueError | cJSONDecodeError, cJSONDecodeError
  | cUnicodeError, cUnicodeError | cUnicodeEncodeError, cUnicodeEncodeError
  | cUnicodeDecodeError, cUnicodeDecodeError | cLookupError, cLookupError
  | cKeyError, cKeyError | cTypeError, cTypeError
  | cStopIteration, cStopIteration => true
  | cRequests x, cRequests y => requests_class_eqb x y
  | cOther x, cOther y => str_eqb x y
  | _, _ => false
  end.

(** The direct base classes.  The four classes of [browser.py] are declared
    there; [requests.exceptions] derives [RequestException] from [IOError]. *)
Definition bases (c : cls) : list cls :=
  match c with
  | cException => []
  | cDownloadError => [cException]
  | cCacheNotFoundError => [cDownloadError]
  | cBugzillaError => [cException]
  | cBugNotFoundError => [cBugzillaError]
  | cOSError | cValueError | cLookupError | cTypeError | cStopIteration => [cException]
  | cJSONDecodeError | cUnicodeError => [cValueError]
  | cUnicodeEncodeError | cUnicodeDecodeError => [cUnicodeError]
  | cKeyError => [cLookupError]
  | cRequests RequestException => [cOSError]
  | cRequests HTTPError | cRequests ConnectionError | cRequests Timeout
  | cRequests ChunkedEncodingError => [cRequests RequestException]
  | cRequests ProxyError | cRequests SSLError => [cRequests ConnectionError]
  | cRequests ConnectTimeout => [cRequests ConnectionError; cRequests Timeout]
  | cRequests ReadTimeout => [cRequests Timeout]
  | cOther _ => [cException]
  end.

Fixpoint issubclass_upto (depth : nat) (c d : cls) : bool :=
  cls_eqb c d ||
  match depth with
  | O => false
  | S n => existsb (fun b => issubclass_upto n b d) (bases c)
  end.

(** No chain of base classes above is longer than five. *)
Definition issubclass (c d : cls) : bool := issubclass_upto 5 c d.

Definition class_of (e : exn) : cls :=
  match e with
  | DownloadError _ => cDownloadError
  | CacheNotFoundError _ => cCacheNotFoundError
  | BugzillaError _ _ _ => cBugzillaError
  | BugNotFoundError _ _ _ => cBugNotFoundError
  | OSError _ => cOSError
  | JSONDecodeError _ => cJSONDecodeError
  | UnicodeEncodeError => cUnicodeEncodeError
  | UnicodeDecodeError => cUnicodeDecodeError
  | KeyError _ => cKeyError
  | TypeError => cTypeError
  | StopIteration => cStopIteration
  | RequestsError c _ => cRequests c
  | OtherError name _ => cOther name
  end.

Definition isinstance (e : exn) (c : cls) : bool := issubclass (class_of e) c.
Arguments isinstance e c : simpl never.

(** [str(e)] *)
Definition str_of_exn (e : exn) : str :=
  match e with
  | DownloadError msg | CacheNotFoundError msg | JSONDecodeError msg
  | RequestsError _ msg | OtherError _ msg => msg
  | _ => []
  end.

(** *** Operators on decoded JSON *)

Fixpoint dict_get {V : Type} (d : list (str * V)) (key : str) : option V :=
  match d with
  | [] => None
  | (k, v) :: rest => if str_eqb k key then Some v else dict_get rest key
  end.

(** [d[key] = value] on a [dict]: an existing key keeps its place. *)
Fixpoint dict_set {V : Type} (d : list (str * V)) (key : str) (value : V)
  : list (str * V) :=
  match d with
  | [] => [(key, value)]
  | (k, v) :: rest =>
    if str_eqb k key then (k, value) :: rest
    else (k, v) :: dict_set rest key value
  end.

(** [float == int], an exact comparison of the two numbers. *)
Definition float_eq_int (f : spec_float) (n : Z) : bool :=
  match f with
  | S754_zero _ => (n =? 0)%Z
  | S754_infinity _ | S754_nan => false
  | S754_finite s m e =>
    let v := if s then Z.neg m else Z.pos m in
    if (0 <=? e)%Z then (v * 2 ^ e =? n)%Z else (v =? n * 2 ^ (- e))%Z
  end.

(** [v == n] for an [int] literal [n]. *)
Definition py_eq_int (v : json) (n : Z) : bool :=
  match v with
  | JInt z => (z =? n)%Z
  | JBool b => ((if b then 1 else 0) =? n)%Z
  | JFloat f => float_eq_int f n
  | _ => false
  end.

(** [key in v] for a [str] key. *)
Definition py_in (key : str) (v : json) : result bool :=
  match v with
  | JObj fields =>
    Ok (match dict_get fields key with Some _ => true | None => false end)
  | JArr items =>
    Ok (existsb (fun x => match x with JStr s => str_eqb s key | _ => false end) items)
  | JStr s => Ok (is_substring key s)
  | _ => Raise TypeError
  end.

(** [v[key]] for a [str] key. *)
Definition py_getitem (v : json) (key : str) : result json :=
  match v with
  | JObj fields =>
    match dict_get fields key with
    | Some x => Ok x
    | None => Raise (KeyError key)
    end
  | _ => Raise TypeError
  end.

Definition is_None (v : json) : bool :=
  match v with JNull => true | _ => false end.

(** *** [json.dumps] with its default arguments ([json/encoder.py]) *)
Module JsonEncoder.

Definition hex_lower (d : N) : N :=
  nth (N.to_nat d) (lit "0123456789abcdef") (ord "0").

(** ['\\u{0:04x}'.format(n)] for [n < 0x10000]. *)
Definition u_escape (n : N) : str :=
  [ord "\"; ord "u"; hex_lower (n / 4096); hex_lower (n / 256 mod 16);
   hex_lower (n / 16 mod 16); hex_lower (n mod 16)].

(** What [py_encode_basestring_ascii] puts for one character: [ESCAPE_ASCII]
    matches the backslash, the double quote and every character outside
    the range from the space to the tilde; [ESCAPE_DCT] holds the short
    escapes. *)
Definition escape_char (c : N) : str :=
  if c =? ord "\" then [ord "\"; ord "\"]
  else if c =? 34 then [ord "\"; 34]
  else if c =? 8 then [ord "\"; ord "b"]
  else if c =? 12 then [ord "\"; ord "f"]
  else if c =? 10 then [ord "\"; ord "n"]
  else if c =? 13 then [ord "\"; ord "r"]
  else if c =? 9 then [ord "\"; ord "t"]
  else if (ord " " <=? c) && (c <=? ord "~") then [c]
  else if c <? 0x10000 then u_escape c
  else
    let n := c - 0x10000 in
    let s1 := N.lor 0xd800 (N.land (N.shiftr n 10) 0x3ff) in
    let s2 := N.lor 0xdc00 (N.land n 0x3ff) in
    u_escape s1 ++ u_escape s2.

Definition encode_basestring_ascii (s : str) : str :=
  dquote ++ concat (map escape_char s) ++ dquote.

Section Dumps.

(** [float.__repr__] on the finite floats. *)
Variable float_repr : spec_float -> str.

Definition floatstr (o : spec_float) : str :=
  match o with
  | S754_nan => lit "NaN"
  | S754_infinity false => lit "Infinity"
  | S754_infinity true => lit "-Infinity"
  | _ => float_repr o
  end.

(** [json.dumps(o)]: the items of a list or of a [dict] are separated by a
    comma and a space, key and value by a colon and a space; the keys of a
    [dict] come in the order of the [dict], they are not sorted. *)
Fixpoint dumps (o : json) : str :=
  match o with
  | JNull => lit "null"
  | JBool true => lit "true"
  | JBool false => lit "false"
  | JInt z => str_of_int z
  | JFloat f => floatstr f
  | JStr s => encode_basestring_ascii s
  | JArr items => lit "[" ++ join (lit ", ") (map dumps items) ++ lit "]"
  | JObj fields =>
    lit "{"
    ++ join (lit ", ")
         (map (fun '(key, value) =>
                 encode_basestring_ascii key ++ lit ": " ++ dumps value) fields)
    ++ lit "}"
  end.

End Dumps.

End JsonEncoder.

(** ** The outside world *)

(** A [requests.Response]: [status_line] is the text [raise_for_status]
    puts in its [HTTPError]; [text] and [json] are what the properties of
    the same names give. *)
Record Response := {
  status_code : Z;
  status_line : str;
  r_content : bytes;
  r_text : str;
  r_json : result json;
}.

(** [r.raise_for_status()] *)
Definition raise_for_status (r : Response) : result unit :=
  if ((400 <=? status_code r) && (status_code r <? 600))%Z
  then Raise (RequestsError HTTPError (status_line r))
  else Ok tt.

(** [urllib3]'s [Retry] configuration. *)
Record Retry := {
  total : Z;
  backoff_factor : Z;
  status_forcelist : list Z;
}.

(** An [OpenSSL.crypto.X509] certificate, as far as [_get] looks at it. *)
Record X509 := {
  issuer_components : list (bytes * bytes);
  digest : str -> bytes;
}.

(** What [PreparedRequest.prepare_url] makes of a URL before it encodes the
    parameters: a URL with a colon that does not start with [http] is taken
    as it stands and gets no parameters; any other URL is checked and split
    ([InvalidURL] and [MissingSchema] are raised here), and the encoded
    parameters are then put into its query. *)
Inductive prepared :=
| Verbatim (url : str)
| WithQuery (assemble : str -> str).

(** The libraries and remote parties the browser talks to.  The calls that
    reach the network take the world's clock: the same request may be
    answered differently at different times. *)
Record Env := {
  json_loads : str -> result json;
  json_dumps : json -> str;
  py_repr : json -> str;
  (** [urljoin(base, url)]; [ValueError] for a URL it cannot split *)
  urljoin : str -> str -> result str;
  (** [urlparse(url)], as far as [_get] reads it: the scheme and the
      network location; [ValueError] for a URL it cannot split *)
  urlparse : str -> result (str * str);
  (** [Session.get(url, auth, timeout, headers)] with an adapter mounted
      on the scheme prefix *)
  session_get : nat -> str -> Retry -> str -> option (str * str) -> Z
                -> list (str * str) -> result Response;
  (** [requests.post(url, data, auth, headers)] *)
  requests_post : nat -> str -> str -> option (str * str) -> list (str * str)
                  -> result Response;
  (** whether [import OpenSSL] succeeds *)
  import_OpenSSL : bool;
  get_server_certificate : nat -> str -> Z -> result str;
  load_certificate : str -> result X509;
  (** [PreparedRequest.prepare_url] up to the encoding of the parameters *)
  prepare_url : str -> result prepared;
}.

Inductive level := INFO | WARNING | ERROR.

(** What an operation did to the outside, in order. *)
Inductive event :=
| Log (l : level) (msg : str)
| DiskRead (path : str)
| DiskWrite (path : str)
| NetGet (url : str)
| NetPost (url : str) (data : str)
| CertProbe (host : str).

(** The disk is a flat map from paths to files; a path mapped to [inl errno]
    cannot be opened, for reading or for writing. *)
Record World := {
  files : gmap (list N) (Z + list N);
  clock : nat;
  trace : list event;
}.

Record Browser := {
  save : bool;
  load : bool;
  load_dir : str;
  save_dir : str;
  dry_run : bool;
  root_url : str;
  auth : option (str * str);
  headers : list (str * str);
  cache : gmap (list N) (list N);
}.

(** The options object handed to the constructor; [None] is an attribute
    the object does not have. *)
Record Args := {
  args_save : option bool;
  args_load : option bool;
  args_load_dir : option str;
  args_save_dir : option str;
  args_dry_run : option bool;
}.

(** [Browser.__init__] *)
Definition Browser_init (args : Args) (root_url : str)
    (auth : option (str * str)) (headers : list (str * str)) : Browser :=
  {| save := default false (args_save args);
     load := default false (args_load args);
     load_dir := default (lit ".") (args_load_dir args);
     save_dir := default (lit ".") (args_save_dir args);
     dry_run := default false (args_dry_run args);
     root_url := root_url;
     auth := auth;
     headers := dict_set headers (lit "User-Agent")
                  (lit "openqa-review (https://os-autoinst.github.io/openqa_review)");
     cache := ∅ |}.

(** ** Stateful computations that may raise *)

Record State := {
  self : Browser;
  world : World;
}.

Definition M (A : Type) : Type := State -> result A * State.

Definition ret {A} (a : A) : M A := fun st => (Ok a, st).
Definition raise {A} (e : exn) : M A := fun st => (Raise e, st).
Definition bind {A B} (m : M A) (k : A -> M B) : M B :=
  fun st =>
    match m st with
    | (Ok a, st') => k a st'
    | (Raise e, st') => (Raise e, st')
    end.
Definition lift {A} (r : result A) : M A := fun st => (r, st).

(** [try: m except Exception as e: h e] *)
Definition catch {A} (m : M A) (h : exn -> M A) : M A :=
  fun st =>
    match m st with
    | (Ok a, st') => (Ok a, st')
    | (Raise e, st') => h e st'
    end.

Notation "x <- m ;; k" := (bind m (fun x => k))
  (at level 90, m at level 89, right associativity).
Notation "m ;;; k" := (bind m (fun _ => k))
  (at level 90, right associativity).

Definition emit (ev : event) : M unit :=
  fun st =>
    (Ok tt, {| self := self st;
               world := {| files := files (world st);
                           clock := clock (world st);
                           trace := trace (world st) ++ [ev] |} |}).

(** The current time; time passes. *)
Definition tick : M nat :=
  fun st =>
    (Ok (clock (world st)),
     {| self := self st;
        world := {| files := files (world st);
                    clock := S (clock (world st));
                    trace := trace (world st) |} |}).

Definition get_self : M Browser := fun st => (Ok (self st), st).

(** [self.cache[url] = raw] *)
Definition cache_store (url raw : str) : M unit :=
  fun st =>
    let b := self st in
    (Ok tt, {| self := {| save := save b; load := load b;
                          load_dir := load_dir b; save_dir := save_dir b;
                          dry_run := dry_run b; root_url := root_url b;
                          auth := auth b; headers := headers b;
                          cache := <[url := raw]> (cache b) |};
               world := world st |}).

Definition log_info (msg : str) : M unit := emit (Log INFO msg).
Definition log_warning (msg : str) : M unit := emit (Log WARNING msg).
Definition log_error (msg : str) : M unit := emit (Log ERROR msg).

(** [codecs.open(path, "r", "utf8").read()] *)
Definition read_file (path : str) : M str :=
  emit (DiskRead path) ;;;
  fun st =>
    match files (world st) !! path with
    | None => (Raise (OSError ENOENT), st)
    | Some (inl errno) => (Raise (OSError errno), st)
    | Some (inr data) => (Utf8.decode Utf8.Strict data, st)
    end.

Definition set_file (path : str) (data : bytes) : M unit :=
  fun st =>
    (Ok tt, {| self := self st;
               world := {| files := <[path := inr data]> (files (world st));
                           clock := clock (world st);
                           trace := trace (world st) |} |}).

(** [codecs.open(path, "w", "utf8").write(raw)]: opening truncates the
    file, writing encodes. *)
Definition write_file (path : str) (raw : str) : M unit :=
  emit (DiskWrite path) ;;;
  st <- (fun st => (Ok st, st)) ;;
  match files (world st) !! path with
  | Some (inl errno) => raise (OSError errno)
  | _ =>
    set_file path [] ;;;
    data <- lift (Utf8.encode raw) ;;
    set_file path data
  end.

(** ** [sortedcontainers.SortedDict] and the parameter encoding of [requests] *)

Fixpoint str_ltb (a b : str) : bool :=
  match a, b with
  | _, [] => false
  | [], _ :: _ => true
  | x :: a', y :: b' => (x <? y) || ((x =? y) && str_ltb a' b')
  end.

(** [d[key] = value] on a [SortedDict], kept as the list of its items in
    key order. *)
Fixpoint sorted_set (d : list (str * str)) (key value : str) : list (str * str) :=
  match d with
  | [] => [(key, value)]
  | (k, v) :: rest =>
    if str_eqb k key then (k, value) :: rest
    else if str_ltb key k then (key, value) :: d
    else (k, v) :: sorted_set rest key value
  end.

(** [SortedDict(d)] for a [dict] given by its items in insertion order. *)
Definition SortedDict (d : list (str * str)) : list (str * str) :=
  fold_left (fun acc kv => sorted_set acc (fst kv) (snd kv)) d [].

(** [RequestEncodingMixin._encode_params] on a mapping from [str] to
    [str]: keys and values are encoded, then url-encoded in the order of
    [items()]. *)
Fixpoint encode_pairs (items : list (str * str)) : result (list (bytes * bytes)) :=
  match items with
  | [] => Ok []
  | (k, v) :: rest =>
    match Utf8.encode k with
    | Raise e => Raise e
    | Ok k' =>
      match Utf8.encode v with
      | Raise e => Raise e
      | Ok v' =>
        match encode_pairs rest with
        | Raise e => Raise e
        | Ok l => Ok ((k', v') :: l)
        end
      end
    end
  end.

Definition _encode_params (data : list (str * str)) : result str :=
  match encode_pairs data with
  | Ok pairs => UrlParse.urlencode pairs
  | Raise e => Raise e
  end.

(** ** The browser *)

(** What [get_page] returns: the decoded JSON or the text. *)
Definition content (as_json : bool) : Type := if as_json then json else list N.

Definition default_retries : Retry :=
  {| total := 7; backoff_factor := 2;
     status_forcelist := [429; 500; 502; 503; 504]%Z |}.

Section Methods.

Variable E : Env.

(** [json.loads(raw) if as_json else raw] *)
Definition loads_if (as_json : bool) (raw : str) : result (content as_json) :=
  match as_json return result (content as_json) with
  | true => json_loads E raw
  | false => Ok raw
  end.

(** [json.dumps(content) if as_json else content] *)
Definition dumps_if (as_json : bool) : content as_json -> str :=
  match as_json return content as_json -> str with
  | true => fun c => json_dumps E c
  | false => fun c => c
  end.

(** [url if not url.startswith(slash) else urljoin(str(root), str(url))],
    with [root] the root URL the method joins to. *)
Definition join_root (root url : str) : result str :=
  if negb (startswith (lit "/") url) then Ok url else urljoin E root url.

Definition _decode_content (url raw : str) (as_json : bool) : M (content as_json) :=
  catch (lift (loads_if as_json raw))
    (fun e =>
       if isinstance e cJSONDecodeError then
         let msg := lit "Unable to decode JSON for " ++ url ++ lit ": "
                    ++ str_of_exn e ++ lit " (Content was: " ++ dquote ++ raw
                    ++ dquote ++ lit ")" in
         log_warning msg ;;;
         raise (DownloadError msg)
       else raise e).

Definition first_of {A} (l : list A) : M A :=
  match l with
  | [] => raise StopIteration
  | x :: _ => ret x
  end.

Definition _get (url : str) (as_json : bool) : M (content as_json) :=
  b <- get_self ;;
  let retries := default_retries in
  parsed_url <- lift (urlparse E url) ;;
  let scheme := fst parsed_url in
  let netloc := snd parsed_url in
  r <- catch
         (emit (NetGet url) ;;;
          now <- tick ;;
          lift (session_get E now (scheme ++ lit "://") retries url (auth b) 30
                  (headers b)))
         (fun e =>
            if isinstance e (cRequests SSLError) then
              if negb (import_OpenSSL E) then raise e
              else
                let server_name := netloc in
                emit (CertProbe server_name) ;;;
                now <- tick ;;
                cert <- lift (get_server_certificate E now server_name 443) ;;
                x509 <- lift (load_certificate E cert) ;;
                let issuers :=
                  List.filter (fun component => str_eqb (fst component) (lit "O"))
                    (issuer_components x509) in
                first <- first_of issuers ;;
                issuer <- lift (Utf8.decode Utf8.Ignore (snd first)) ;;
                sha1digest <- lift (Utf8.decode Utf8.Ignore (digest x509 (lit "sha1"))) ;;
                sha256digest <- lift (Utf8.decode Utf8.Ignore (digest x509 (lit "sha256"))) ;;
                let msg := lit "Certificate for " ++ dquote ++ server_name ++ dquote
                           ++ lit " from " ++ dquote ++ issuer ++ dquote
                           ++ lit " (sha1: " ++ sha1digest ++ lit ", sha256 "
                           ++ sha256digest ++ lit ") is not trusted by the system" in
                log_error msg ;;;
                raise (DownloadError msg)
            else if isinstance e (cRequests ConnectionError) then
              let msg := lit "Request to " ++ url ++ lit " was not successful after "
                         ++ str_of_int (total retries) ++ lit " retries: "
                         ++ str_of_exn e in
              log_warning msg ;;;
              raise (DownloadError msg)
            else if isinstance e (cRequests ChunkedEncodingError) then
              let msg := lit "Request to " ++ url ++ lit " was not successful: "
                         ++ str_of_exn e in
              log_warning msg ;;;
              raise (DownloadError msg)
            else raise e) ;;
  catch (lift (raise_for_status r))
    (fun e =>
       if isinstance e (cRequests HTTPError) then
         let msg := lit "Request to " ++ url ++ lit " failed: " ++ str_of_exn e in
         log_warning msg ;;;
         raise (DownloadError msg)
       else raise e) ;;;
  text <- lift (Utf8.decode Utf8.Strict (r_content r)) ;;
  _decode_content url text as_json.

(** The [try] block of [get_page]: the fixture is read from the load
    directory, and a missing file becomes [CacheNotFoundError]. *)
Definition load_fixture (b : Browser) (url filename : str) : M str :=
  catch (read_file (os_path_join (load_dir b) filename))
    (fun e =>
       if isinstance e cOSError then
         match e with
         | OSError errno =>
           if (errno =? ENOENT)%Z then
             let msg := lit "Request to " ++ url
                        ++ lit " was not successful, file "
                        ++ filename ++ lit " not found" in
             log_info msg ;;;
             raise (CacheNotFoundError msg)
           else raise e
         | _ => raise e
         end
       else raise e).

(** The [if self.load and cache: ... else: ...] statement of [get_page]. *)
Definition resolve (b : Browser) (url filename : str) (as_json use_cache : bool)
  : M (content as_json) :=
  if load b && use_cache then
    log_info (lit "Loading content instead of URL " ++ url
              ++ lit " from filename " ++ filename) ;;;
    raw <- load_fixture b url filename ;;
    lift (loads_if as_json raw)
  else
    absolute_url <- lift (join_root (root_url b) url) ;;
    _get absolute_url as_json.

(** The [if self.save: ...] statement of [get_page]. *)
Definition persist (b : Browser) (url filename raw : str) : M unit :=
  if save b then
    log_info (lit "Saving content instead from URL " ++ url
              ++ lit " from filename " ++ filename) ;;;
    write_file (os_path_join (save_dir b) filename) raw
  else ret tt.

Definition get_page (url : str) (as_json use_cache : bool) : M (content as_json) :=
  b <- get_self ;;
  match cache b !! url, use_cache with
  | Some hit, true =>
    log_info (lit "Loading content instead of URL " ++ url
              ++ lit " from in-memory cache") ;;;
    lift (loads_if as_json hit)
  | _, _ =>
    filename <- lift (url_to_filename url) ;;
    body <- resolve b url filename as_json use_cache ;;
    let raw := dumps_if as_json body in
    persist b url filename raw ;;;
    cache_store url raw ;;;
    ret body
  end.

(** [get_json(url, cache)] *)
Definition get_json (url : str) (use_cache : bool) : M json :=
  get_page url true use_cache.

(** The first three lines of [json_rpc_get]: the sorted parameters and
    the URL of the prepared GET request. *)
Definition rpc_get_params (method : str) (params : json) : list (str * str) :=
  SortedDict [(lit "method", method);
              (lit "params", json_dumps E (JArr [params]))].

Definition rpc_get_url (url method : str) (params : json) : result str :=
  match join_root (lit "http://dummy/") url with
  | Raise e => Raise e
  | Ok absolute_url =>
    let get_params := rpc_get_params method params in
    match prepare_url E absolute_url with
    | Raise e => Raise e
    | Ok (Verbatim get_url) => Ok get_url
    | Ok (WithQuery assemble) =>
      match _encode_params get_params with
      | Ok enc => Ok (assemble enc)
      | Raise e => Raise e
      end
    end
  end.

Definition json_rpc_get (url method : str) (params : json) (use_cache : bool)
  : M json :=
  get_url <- lift (rpc_get_url url method params) ;;
  response <- get_json (replace_str (lit "http://dummy") [] get_url) use_cache ;;
  has <- lift (py_in (lit "error") response) ;;
  has_error <- (if has : bool then
                  e <- lift (py_getitem response (lit "error")) ;;
                  ret (negb (is_None e))
                else ret false) ;;
  if has_error : bool then
    error <- lift (py_getitem response (lit "error")) ;;
    code <- lift (py_getitem error (lit "code")) ;;
    if py_eq_int code 101 then
      code <- lift (py_getitem error (lit "code")) ;;
      message <- lift (py_getitem error (lit "message")) ;;
      raise (BugNotFoundError get_url code message)
    else
      code <- lift (py_getitem error (lit "code")) ;;
      message <- lift (py_getitem error (lit "message")) ;;
      raise (BugzillaError get_url code message)
  else ret response.

(** The [for i in range(1, 7)] loop of [json_rpc_post]; [Some r] is the
    response at [break], [None] is the loop running to its end. *)
Fixpoint post_attempts (b : Browser) (absolute_url data : str) (tries : list Z)
  : M (option Response) :=
  match tries with
  | [] => ret None
  | i :: rest =>
    catch
      (let headers := dict_set (headers b) (lit "content-type")
                        (lit "application/json") in
       emit (NetPost absolute_url data) ;;;
       now <- tick ;;
       r <- lift (requests_post E now absolute_url data (auth b) headers) ;;
       lift (raise_for_status r) ;;;
       ret (Some r))
      (fun e =>
         if isinstance e (cRequests ConnectionError) then
           log_info (lit "Connection error encountered accessing " ++ absolute_url
                     ++ lit ", retrying try " ++ str_of_int i) ;;;
           post_attempts b absolute_url data rest
         else raise e)
  end.

(** [range(1, 7)] *)
Definition range_1_7 : list Z := map Z.of_nat (seq 1 6).

(** The result is a JSON value, [JNull] being Python's [None]. *)
Definition json_rpc_post (url method : str) (params : json) : M json :=
  b <- get_self ;;
  if dry_run b then
    log_warning (lit "NOT sending '" ++ method ++ lit "' request to '" ++ url
                 ++ lit "' with params " ++ py_repr E params) ;;;
    ret (JObj [])
  else
    absolute_url <- lift (join_root (root_url b) url) ;;
    let data := json_dumps E (JObj [(lit "method", JStr method);
                                    (lit "params", JArr [params])]) in
    outcome <- post_attempts b absolute_url data range_1_7 ;;
    match outcome with
    | None =>
      let msg := lit "Request to " ++ absolute_url
                 ++ lit " was not successful after multiple retries, giving up" in
      log_warning msg ;;;
      ret JNull
    | Some r =>
      match r_text r with
      | [] => ret JNull
      | _ => lift (r_json r)
      end
    end.

End Methods.

(** ** Vocabulary of the statements *)

(** The URLs the codec is specified on: every character is a Unicode
    scalar value, so that it is ASCII or has a percent-encoding. *)
Definition is_scalar (ch : N) : bool :=
  (ch <=? 0x10FFFF) && negb (Utf8.is_surrogate ch).

Definition encodable (url : str) : bool := forallb is_scalar url.

Definition range_N (n : nat) : list N := map N.of_nat (seq 0 n).

(** The safe set of [quote] with its default [safe='/']. *)
Definition default_safe : bytes := List.filter (fun c => c <? 128) (lit "/").

Definition quoted (bs : bytes) : str :=
  concat (map (UrlParse.quoter default_safe) bs).

Definition all_safe (bs : bytes) : bool :=
  forallb (fun b => contains b (UrlParse._ALWAYS_SAFE ++ default_safe)) bs.

(** The two hexadecimal digits of a byte read back as the byte, and none
    of them is a character the codec treats specially. *)
Definition hex_ok (b : N) : bool :=
  let h1 := UrlParse.hex_upper (b / 16) in
  let h2 := UrlParse.hex_upper (b mod 16) in
  match UrlParse._hextobyte [h1; h2] with
  | Some b' => b' =? b
  | None => false
  end
  && forallb (fun c => (c <=? 0x7F) && negb (c =? ord "%") && negb (c =? ord ":")
                       && negb (c =? ord "/")) [h1; h2].

(** The state after one more line in the log. *)
Definition logged (st : State) (l : level) (msg : str) : State :=
  {| self := self st;
     world := {| files := files (world st); clock := clock (world st);
                 trace := trace (world st) ++ [Log l msg] |} |}.

Definition with_cache (b : Browser) (c : gmap (list N) (list N)) : Browser :=
  {| save := save b; load := load b; load_dir := load_dir b;
     save_dir := save_dir b; dry_run := dry_run b; root_url := root_url b;
     auth := auth b; headers := headers b; cache := c |}.

(** The underlying retrievals: a read of the disk or a fetch from the
    network. *)
Definition is_retrieval (ev : event) : bool :=
  match ev with
  | DiskRead _ | NetGet _ => true
  | _ => false
  end.

Fixpoint retrievals (tr : list event) : nat :=
  match tr with
  | [] => 0
  | ev :: t => (if is_retrieval ev then 1 else 0) + retrievals t
  end.

Definition is_post (ev : event) : bool :=
  match ev with
  | NetPost _ _ => true
  | _ => false
  end.

Fixpoint count_posts (tr : list event) : nat :=
  match tr with
  | [] => 0
  | ev :: t => (if is_post ev then 1 else 0) + count_posts t
  end.

(** [uses n m]: running [m] leaves the instance as it is and performs at
    most [n] retrievals. *)
Definition uses {A} (n : nat) (m : M A) : Prop :=
  forall st r st', m st = (r, st') ->
    self st' = self st /\
    (retrievals (trace (world st')) <= retrievals (trace (world st)) + n)%nat.

Definition hit_message (url : str) : str :=
  lit "Loading content instead of URL " ++ url ++ lit " from in-memory cache".

Definition not_found_message (url filename : str) : str :=
  lit "Request to " ++ url ++ lit " was not successful, file " ++ filename
  ++ lit " not found".

Definition certificate_message (server_name issuer sha1digest sha256digest : str)
  : str :=
  lit "Certificate for " ++ dquote ++ server_name ++ dquote
  ++ lit " from " ++ dquote ++ issuer ++ dquote
  ++ lit " (sha1: " ++ sha1digest ++ lit ", sha256 "
  ++ sha256digest ++ lit ") is not trusted by the system".

(** The headers of a POST: a copy of the instance's with the content type. *)
Definition post_headers (b : Browser) : list (str * str) :=
  dict_set (headers b) (lit "content-type") (lit "application/json").

(** The first [k] attempts all fail with a connection error. *)
Definition connection_errors (attempt : nat -> result Response) (k : nat) : Prop :=
  forall j, (j < k)%nat ->
    exists e, attempt j = Raise e /\ isinstance e (cRequests ConnectionError) = true.

Section Vocabulary.

Variable E : Env.

(** The path of [get_page] past the in-memory cache. *)
Definition get_page_miss (url : str) (as_json use_cache : bool) (b : Browser)
  : M (content as_json) :=
  filename <- lift (url_to_filename url) ;;
  body <- resolve E b url filename as_json use_cache ;;
  let raw := dumps_if E as_json body in
  persist b url filename raw ;;;
  cache_store url raw ;;;
  ret body.

Definition dry_run_message (url method : str) (params : json) : str :=
  lit "NOT sending '" ++ method ++ lit "' request to '" ++ url
  ++ lit "' with params " ++ py_repr E params.

End Vocabulary.

(** ** Sample inputs *)

Definition demo_url : str := lit "http://openqa.opensuse.org/tests/foo/3".
Definition demo_filename : str := lit "http%3A::openqa.opensuse.org:tests:foo:3".

(** A stand-in for the libraries and the network: [loads] is the JSON
    decoder, [get] and [post] answer the requests made at a given time. *)
Definition sample_env (loads : str -> result json)
    (get post : nat -> result Response) (openssl : bool) : Env :=
  {| json_loads := loads;
     json_dumps := fun _ => lit "[{}]";
     py_repr := fun _ => lit "{}";
     urljoin := fun base url =>
       Ok ((if endswith (lit "/") base then removelast base else base) ++ url);
     urlparse := fun _ => Ok (lit "http", lit "openqa.opensuse.org");
     session_get := fun now _ _ _ _ _ _ => get now;
     requests_post := fun now _ _ _ _ => post now;
     import_OpenSSL := openssl;
     get_server_certificate := fun _ _ _ => Ok (lit "PEM");
     load_certificate := fun _ =>
       Ok {| issuer_components := [(lit "C", lit "DE"); (lit "O", lit "Example CA")];
             digest := fun alg => lit "AB:CD" |};
     prepare_url := fun url => Ok (WithQuery (fun enc => url ++ lit "?" ++ enc)) |}.

Definition no_json (s : str) : result json :=
  Raise (JSONDecodeError (lit "Expecting value")).

Definition bug_not_found : list (str * json) :=
  [(lit "error", JObj [(lit "code", JInt 101);
                       (lit "message", JStr (lit "Bug #42 not found"))])].

Definition canned_json (s : str) : result json := Ok (JObj bug_not_found).

Definition page (body : str) : Response :=
  {| status_code := 200; status_line := lit "200 OK"; r_content := body;
     r_text := body; r_json := Ok (JObj []) |}.

Definition tls_error : exn := RequestsError SSLError (lit "certificate verify failed").
Definition refused : exn := RequestsError ConnectionError (lit "Connection refused").

Definition online (now : nat) : result Response := Ok (page (lit "live")).
Definition untrusted (now : nat) : result Response := Raise tls_error.
Definition flaky (now : nat) : result Response :=
  if (now <? 2)%nat then Raise refused else Ok (page (lit "{}")).

Definition sample_browser (load dry_run : bool) : Browser :=
  Browser_init {| args_save := None; args_load := Some load;
                  args_load_dir := None; args_save_dir := None;
                  args_dry_run := Some dry_run |}
    (lit "http://openqa.opensuse.org") None [].

Definition sample_state (load dry_run : bool) (files : gmap (list N) (Z + list N))
  : State :=
  {| self := sample_browser load dry_run;
     world := {| files := files; clock := 0; trace := [] |} |}.

Definition fixture : gmap (list N) (Z + list N) :=
  {[ os_path_join (lit ".") demo_filename := inr (lit "hello") ]}.

Definition with_entry (st : State) (url raw : str) : State :=
  {| self := with_cache (self st) (<[url := raw]> (cache (self st)));
     world := world st |}.

(** A browser in load mode that has fetched the page once with caching
    switched off: the page is in memory, no fixture is on disk. *)
Definition warmed_up : State :=
  snd (get_page (sample_env no_json online online false) demo_url false false
         (sample_state true false ∅)).

Definition rpc_url : str := lit "/jsonrpc.cgi".
Definition rpc_method : str := lit "Bug.get".
Definition rpc_params : json := JObj [(lit "id", JInt 42)].

Definition rpc_get_url_sample : str :=
  lit "http://dummy/jsonrpc.cgi?method=Bug.get&params=%5B%7B%7D%5D".

(** The replies of a Bugzilla, picked by the text held for the request. *)
Definition bug_error (code : Z) (message : str) : list (str * json) :=
  [(lit "error", JObj [(lit "code", JInt code); (lit "message", JStr message)])].

Definition no_error : list (str * json) :=
  [(lit "error", JNull); (lit "result", JObj [(lit "bugs", JArr [])])].

Definition canned_replies (s : str) : result json :=
  if str_eqb s (lit "not found") then Ok (JObj (bug_error 101 (lit "Bug #42 not found")))
  else if str_eqb s (lit "internal") then Ok (JObj (bug_error 500 (lit "internal")))
  else Ok (JObj no_error).

(** The stand-in with the [json.dumps] of Python; the samples hold no
    floats. *)
Definition python_env : Env :=
  let E := sample_env no_json online online false in
  {| json_loads := json_loads E;
     json_dumps := JsonEncoder.dumps (fun _ => lit "0.0");
     py_repr := py_repr E;
     urljoin := urljoin E;
     urlparse := urlparse E;
     session_get := session_get E;
     requests_post := requests_post E;
     import_OpenSSL := import_OpenSSL E;
     get_server_certificate := get_server_certificate E;
     load_certificate := load_certificate E;
     prepare_url := prepare_url E |}.

(** One mapping, its keys put in in two orders. *)
Definition params_ab : json := JObj [(lit "a", JInt 1); (lit "b", JInt 2)].
Definition params_ba : json := JObj [(lit "b", JInt 2); (lit "a", JInt 1)].


(** ** The remaining methods of the browser *)
Section MoreMethods.

Variable E : Env.

(** [str.upper] *)
Variable upper : str -> str.

(** [requests.request(method, url, data, headers)], asked at a given time *)
Variable requests_request :
  nat -> str -> str -> str -> list (str * str) -> result Response.

(** The parse tree of [bs4] and [BeautifulSoup(markup, features)] *)
Variable Soup : Type.
Variable BeautifulSoup : str -> str -> Soup.

(** The failed [assert url, "url can not be None"]. *)
Definition url_assertion : exn :=
  OtherError (lit "AssertionError") (lit "url can not be None").

Definition get_soup (url : str) : M Soup :=
  match url with
  | [] => raise url_assertion
  | _ =>
    markup <- get_page E url false true ;;
    ret (BeautifulSoup markup (lit "html.parser"))
  end.

(** The request of [json_rest] leaves no event of its own in the trace; it
    shows in the clock, which it advances by one. *)
Definition json_rest (url method : str) (data : json) : M json :=
  b <- get_self ;;
  if dry_run b && negb (str_eqb (upper method) (lit "GET")) then
    log_warning (lit "NOT sending '" ++ method ++ lit "' request to '" ++ url
                 ++ lit "' with params " ++ py_repr E data) ;;;
    ret (JObj [])
  else
    absolute_url <- lift (join_root E (root_url b) url) ;;
    let data := json_dumps E data in
    let headers := dict_set (headers b) (lit "content-type")
                     (lit "application/json") in
    now <- tick ;;
    r <- lift (requests_request now method absolute_url data headers) ;;
    lift (raise_for_status r) ;;;
    match r_text r with
    | [] => ret JNull
    | _ => lift (r_json r)
    end.

End MoreMethods.

(** ** Frames: what a computation leaves alone *)

(** [respects R m]: the states before and after a run of [m] are related
    by [R], whether it returns or raises. *)
Definition respects {A} (R : State -> State -> Prop) (m : M A) : Prop :=
  forall st r st', m st = (r, st') -> R st st'.

Definition same_self (st st' : State) : Prop := self st' = self st.

Definition same_files (st st' : State) : Prop :=
  files (world st') = files (world st).

(** The trace has only grown, by events that satisfy [P]. *)
Definition only_events (P : event -> bool) (st st' : State) : Prop :=
  exists evs, trace (world st') = trace (world st) ++ evs /\ forallb P evs = true.

Definition is_network (ev : event) : bool :=
  match ev with
  | NetGet _ | NetPost _ _ | CertProbe _ => true
  | _ => false
  end.

Definition is_disk_read (ev : event) : bool :=
  match ev with
  | DiskRead _ => true
  | _ => false
  end.

Definition not_network (ev : event) : bool := negb (is_network ev).
Definition not_disk_read (ev : event) : bool := negb (is_disk_read ev).

(** The trace grew, and the first new event is [ev]. *)
Definition begins_with (ev : event) (st st' : State) : Prop :=
  exists evs, trace (world st') = trace (world st) ++ ev :: evs.

Definition any_event (ev : event) : bool := true.

Definition unchanged (st st' : State) : Prop := st' = st.

Definition undecodable_message (url : str) (e : exn) (raw : str) : str :=
  lit "Unable to decode JSON for " ++ url ++ lit ": " ++ str_of_exn e
  ++ lit " (Content was: " ++ dquote ++ raw ++ dquote ++ lit ")".

(** What [json_rpc_get] does with the decoded response. *)
Definition inspect (get_url : str) (response : json) : M json :=
  has <- lift (py_in (lit "error") response) ;;
  has_error <- (if has : bool then
                  e <- lift (py_getitem response (lit "error")) ;;
                  ret (negb (is_None e))
                else ret false) ;;
  if has_error : bool then
    error <- lift (py_getitem response (lit "error")) ;;
    code <- lift (py_getitem error (lit "code")) ;;
    if py_eq_int code 101 then
      code <- lift (py_getitem error (lit "code")) ;;
      message <- lift (py_getitem error (lit "message")) ;;
      raise (BugNotFoundError get_url code message)
    else
      code <- lift (py_getitem error (lit "code")) ;;
      message <- lift (py_getitem error (lit "message")) ;;
      raise (BugzillaError get_url code message)
  else ret response.

Definition is_object (x : json) : bool :=
  match x with
  | JObj _ => true
  | _ => false
  end.

Definition is_error_string (x : json) : bool :=
  match x with
  | JStr s => str_eqb s (lit "error")
  | _ => false
  end.

(** The characters a file name made by [url_to_filename] can hold. *)
Definition filename_alphabet : str :=
  lit "ABCDEFGHIJKLMNOPQRSTUVWXYZabcdefghijklmnopqrstuvwxyz0123456789_.-~%:".

Definition in_alphabet (c : N) : bool := contains c filename_alphabet.

Definition quoted_name_ok (b : N) : bool :=
  forallb in_alphabet (replace (ord "/") (ord ":") (UrlParse.quoter default_safe b)).

Definition is_ascii (c : N) : bool := c <=? 0x7F.

Definition ticked (st : State) : State :=
  {| self := self st;
     world := {| files := files (world st); clock := S (clock (world st));
                 trace := trace (world st) |} |}.

Definition user_agent : str :=
  lit "openqa-review (https://os-autoinst.github.io/openqa_review)".

(** ** More sample inputs *)

Definition plain_env : Env := sample_env no_json online online false.

(** A browser in save mode, and the browser of a later run that loads from
    the files the first one left. *)
Definition saving_state : State :=
  {| self := Browser_init {| args_save := Some true; args_load := None;
                             args_load_dir := None; args_save_dir := None;
                             args_dry_run := None |}
               (lit "http://openqa.opensuse.org") None [];
     world := {| files := ∅; clock := 0; trace := [] |} |}.

Definition saved_state : State := snd (get_page plain_env demo_url false true saving_state).

Definition replay_state : State :=
  {| self := sample_browser true false; world := world saved_state |}.

Definition timed_out (now : nat) : result Response :=
  Raise (RequestsError ReadTimeout (lit "Read timed out")).

(** [str.upper] on ASCII letters. *)
Definition ascii_upper (s : str) : str :=
  map (fun c => if (ord "a" <=? c) && (c <=? ord "z") then c - 32 else c) s.

Definition rest_refused (now : nat) (method url data : str)
    (headers : list (str * str)) : result Response :=
  Raise refused.

Definition text_soup (markup features : str) : str := markup.

Definition rpc_target : str := lit "/jsonrpc.cgi?method=Bug.get&params=%5B%7B%7D%5D".

Definition null_json (s : str) : result json := Ok JNull.

(** * Facts about the codec *)

Lemma forallb_range (f : N -> bool) (n : nat) :
  forallb f (range_N n) = true -> forall b, b < N.of_nat n -> f b = true.
Proof.
  unfold range_N. rewrite forallb_forall. intros H b Hb.
  apply H. apply in_map_iff. exists (N.to_nat b). split; [lia|].
  apply in_seq. lia.
Qed.

Lemma lor_0x80 x : x < 64 -> N.lor 0x80 x = 0x80 + x.
Proof.
  intros H. apply N.eqb_eq.
  apply (forallb_range (fun x => N.lor 0x80 x =? 0x80 + x) 64); [reflexivity|exact H].
Qed.
Lemma lor_0xC0 x : x < 32 -> N.lor 0xC0 x = 0xC0 + x.
Proof.
  intros H. apply N.eqb_eq.
  apply (forallb_range (fun x => N.lor 0xC0 x =? 0xC0 + x) 32); [reflexivity|exact H].
Qed.
Lemma lor_0xE0 x : x < 16 -> N.lor 0xE0 x = 0xE0 + x.
Proof.
  intros H. apply N.eqb_eq.
  apply (forallb_range (fun x => N.lor 0xE0 x =? 0xE0 + x) 16); [reflexivity|exact H].
Qed.
Lemma lor_0xF0 x : x < 8 -> N.lor 0xF0 x = 0xF0 + x.
Proof.
  intros H. apply N.eqb_eq.
  apply (forallb_range (fun x => N.lor 0xF0 x =? 0xF0 + x) 8); [reflexivity|exact H].
Qed.

Lemma land_0x3F x : N.land x 0x3F = x mod 64.
Proof. change 0x3F with (N.ones 6). rewrite N.land_ones. reflexivity. Qed.

Lemma shiftr_div x n : N.shiftr x n = x / 2 ^ n.
Proof. apply N.shiftr_div_pow2. Qed.

Ltac bool_cases :=
  repeat match goal with
  | |- context [?a <? ?b] => destruct (N.ltb_spec a b); try lia
  | |- context [?a <=? ?b] => destruct (N.leb_spec a b); try lia
  | |- context [?a =? ?b] => destruct (N.eqb_spec a b); try lia
  end.


Ltac split_digit ch d q r :=
  let Hdm := fresh "Hdm" in let Hm := fresh "Hm" in
  pose proof (N.div_mod ch d ltac:(lia)) as Hdm;
  pose proof (N.mod_lt ch d ltac:(lia)) as Hm;
  set (q := ch / d) in *; set (r := ch mod d) in *;
  clearbody q r.

Ltac scan_step :=
  cbn [app Utf8.scan]; unfold Utf8.is_continuation;
  rewrite ?N.shiftl_mul_pow2;
  bool_cases; cbn [negb andb orb]; try (do 2 f_equal; lia).

Lemma scan_encode_char ch :
  is_scalar ch = true ->
  exists bs, Utf8.encode_char ch = Some bs /\
    Forall (fun b => b < 256) bs /\
    forall rest, Utf8.scan (bs ++ rest) = Some ch :: Utf8.scan rest.
Proof.
  unfold is_scalar, Utf8.is_surrogate, Utf8.encode_char.
  intros Hs. apply andb_true_iff in Hs as [Hmax Hsur].
  apply N.leb_le in Hmax. apply negb_true_iff in Hsur.
  destruct (N.ltb_spec ch 0x80) as [H1|H1].
  { eexists; split; [reflexivity|]. split; [repeat constructor; lia|].
    intros rest. simpl.
    destruct (N.ltb_spec ch 128); [reflexivity|lia]. }
  destruct (N.ltb_spec ch 0x800) as [H2|H2].
  { eexists; split; [reflexivity|].
    rewrite land_0x3F, shiftr_div.
    change (2 ^ 6) with 64.
    split_digit ch 64 q r.
    rewrite (lor_0x80 r) by lia. rewrite (lor_0xC0 q) by lia.
    split; [repeat constructor; lia|]. intros rest. scan_step. }
  unfold Utf8.is_surrogate. rewrite Hsur.
  assert (Hns : ch < 0xD800 \/ 0xDFFF < ch).
  { apply andb_false_iff in Hsur as [H|H]; [apply N.leb_gt in H|apply N.leb_gt in H]; lia. }
  clear Hsur.
  destruct (N.ltb_spec ch 0x10000) as [H3|H3].
  { eexists; split; [reflexivity|].
    rewrite !land_0x3F, !shiftr_div.
    change (2 ^ 6) with 64. change (2 ^ 12) with 4096.
    assert (ch / 4096 = ch / 64 / 64) as -> by (rewrite N.Div0.div_div; reflexivity).
    split_digit ch 64 q r. split_digit q 64 q1 r1.
    rewrite (lor_0x80 r) by lia. rewrite (lor_0x80 r1) by lia.
    rewrite (lor_0xE0 q1) by lia.
    split; [repeat constructor; lia|]. intros rest. scan_step. }
  eexists; split; [reflexivity|].
  rewrite !land_0x3F, !shiftr_div.
  change (2 ^ 6) with 64. change (2 ^ 12) with 4096. change (2 ^ 18) with 262144.
  assert (ch / 4096 = ch / 64 / 64) as -> by (rewrite N.Div0.div_div; reflexivity).
  assert (ch / 262144 = ch / 64 / 64 / 64) as -> by (rewrite !N.Div0.div_div; reflexivity).
  split_digit ch 64 q r. split_digit q 64 q1 r1. split_digit q1 64 q2 r2.
  rewrite (lor_0x80 r) by lia. rewrite (lor_0x80 r1) by lia.
  rewrite (lor_0x80 r2) by lia.
  rewrite (lor_0xF0 q2) by lia.
  split; [repeat constructor; lia|]. intros rest. scan_step.
Qed.

Lemma scan_encode s :
  forallb is_scalar s = true ->
  exists bs, Utf8.encode s = Ok bs /\ Forall (fun b => b < 256) bs /\
             Utf8.scan bs = map Some s.
Proof.
  induction s as [|ch t IH]; intros H.
  - exists []. repeat split; constructor.
  - cbn [forallb] in H. apply andb_true_iff in H as [Hc Ht].
    destruct (IH Ht) as (r & Hr & Hb & Hs).
    destruct (scan_encode_char ch Hc) as (b & Hb1 & Hb2 & Hb3).
    exists (b ++ r). cbn [Utf8.encode]. rewrite Hb1, Hr.
    split; [reflexivity|]. split; [apply Forall_app; auto|].
    rewrite Hb3, Hs. reflexivity.
Qed.

Lemma handle_somes h s : Utf8.handle h (map Some s) = Ok s.
Proof. induction s as [|c t IH]; cbn; [reflexivity|]. rewrite IH. reflexivity. Qed.

Lemma scan_ascii bs : forallb (fun b => b <=? 0x7F) bs = true -> Utf8.scan bs = map Some bs.
Proof.
  induction bs as [|b t IH]; intros H; [reflexivity|].
  cbn [forallb] in H. apply andb_true_iff in H as [Hb Ht].
  apply N.leb_le in Hb. cbn [Utf8.scan map].
  destruct (N.ltb_spec b 128); [|lia]. rewrite IH by assumption. reflexivity.
Qed.

Lemma encode_ascii s : forallb (fun b => b <=? 0x7F) s = true -> Utf8.encode s = Ok s.
Proof.
  induction s as [|b t IH]; intros H; [reflexivity|].
  cbn [forallb] in H. apply andb_true_iff in H as [Hb Ht].
  apply N.leb_le in Hb. cbn [Utf8.encode]. unfold Utf8.encode_char.
  destruct (N.ltb_spec b 128); [|lia]. rewrite IH by assumption. reflexivity.
Qed.

Import UrlParse.

Lemma contains_In c l : contains c l = true <-> In c l.
Proof.
  unfold contains. rewrite existsb_exists. split.
  - intros (x & Hx & He). apply N.eqb_eq in He. subst. exact Hx.
  - intros H. exists c. split; [exact H|apply N.eqb_refl].
Qed.

Lemma safe_facts b :
  contains b (_ALWAYS_SAFE ++ default_safe) = true ->
  b <= 0x7F /\ b <> ord "%" /\ b <> ord ":".
Proof.
  intros H. apply contains_In in H.
  assert (Hc : forallb (fun b => (b <=? 0x7F) && negb (b =? ord "%") && negb (b =? ord ":"))
            (_ALWAYS_SAFE ++ default_safe) = true) by reflexivity.
  rewrite forallb_forall in Hc. specialize (Hc b H).
  apply andb_true_iff in Hc as [Hc H3]. apply andb_true_iff in Hc as [H1 H2].
  apply N.leb_le in H1. apply negb_true_iff, N.eqb_neq in H2, H3. auto.
Qed.

Lemma hex_facts b : b < 256 -> hex_ok b = true.
Proof. apply (forallb_range hex_ok 256). reflexivity. Qed.

Lemma hex_chars b :
  b < 256 ->
  exists h1 h2, percent_hex b = [ord "%"; h1; h2] /\
    _hextobyte [h1; h2] = Some b /\
    Forall (fun c => c <= 0x7F /\ c <> ord "%" /\ c <> ord ":" /\ c <> ord "/") [h1; h2].
Proof.
  intros Hb. pose proof (hex_facts b Hb) as H. unfold hex_ok in H.
  cbv zeta in H. apply andb_true_iff in H as [H1 H2].
  exists (hex_upper (b / 16)), (hex_upper (b mod 16)).
  split; [reflexivity|]. split.
  - destruct (_hextobyte _) as [b'|]; [|discriminate].
    apply N.eqb_eq in H1. congruence.
  - cbn [forallb] in H2.
    repeat match goal with
    | H : _ && _ = true |- _ => apply andb_true_iff in H as [? ?]
    | H : negb _ = true |- _ => apply negb_true_iff, N.eqb_neq in H
    | H : (_ <=? _) = true |- _ => apply N.leb_le in H
    end.
    repeat constructor; assumption.
Qed.

(** Every character [quote] emits is ASCII and is not the colon. *)
Lemma quoter_chars b :
  b < 256 ->
  Forall (fun c => c <= 0x7F /\ c <> ord ":") (quoter default_safe b).
Proof.
  intros Hb. unfold quoter.
  destruct (contains b (_ALWAYS_SAFE ++ default_safe)) eqn:Hs.
  - apply safe_facts in Hs as (? & ? & ?). repeat constructor; assumption.
  - destruct (hex_chars b Hb) as (h1 & h2 & -> & _ & Hf).
    inversion Hf as [|? ? (? & ? & ? & ?) Hf']; subst.
    inversion Hf' as [|? ? (? & ? & ? & ?) _]; subst.
    repeat constructor; try assumption; try (cbv; lia); cbv; discriminate.
Qed.

Lemma split_cons_nonsep sep c t :
  c <> sep -> exists h r, split sep t = h :: r /\ split sep (c :: t) = (c :: h) :: r.
Proof.
  intros Hc. cbn [split]. destruct (N.eqb_spec c sep); [contradiction|].
  destruct (split sep t) as [|h r] eqn:E.
  - exfalso. destruct t; cbn in E; [discriminate|].
    destruct (n0 =? sep); [discriminate|]. destruct (split sep t); discriminate.
  - eauto.
Qed.

Lemma split_nonempty sep s : split sep s <> [].
Proof.
  destruct s as [|c t]; cbn; [discriminate|].
  destruct (c =? sep); [discriminate|]. destruct (split sep t); discriminate.
Qed.

Lemma split_single sep s h : split sep s = [h] -> h = s.
Proof.
  revert h. induction s as [|c t IH]; intros h; cbn [split].
  - intros [=]. congruence.
  - destruct (c =? sep).
    { destruct (split sep t) eqn:E; [destruct (split_nonempty _ _ E)|discriminate]. }
    destruct (split sep t) as [|h' r] eqn:E; [intros [=]; destruct (split_nonempty _ _ E)|].
    intros [= <- ->]. f_equal. apply IH. reflexivity.
Qed.

(** The heart of the round trip: splitting the quoted text at the percent
    signs and unquoting the pieces gives the bytes back. *)
Lemma split_quoted bs :
  Forall (fun b => b < 256) bs ->
  exists h r, split (ord "%") (concat (map (quoter default_safe) bs)) = h :: r /\
              h ++ concat (map unquote_item r) = bs.
Proof.
  induction 1 as [|b t Hb Ht (h & r & Hs & Hj)].
  - exists [], []. split; reflexivity.
  - cbn [map concat]. unfold quoter at 1.
    destruct (contains b (_ALWAYS_SAFE ++ default_safe)) eqn:Hsafe.
    + apply safe_facts in Hsafe as (_ & Hp & _).
      cbn [app]. destruct (split_cons_nonsep (ord "%") b
        (concat (map (quoter default_safe) t)) Hp) as (h' & r' & E1 & E2).
      rewrite E2. rewrite Hs in E1. injection E1 as <- <-.
      exists (b :: h), r. split; [reflexivity|]. cbn [app]. congruence.
    + destruct (hex_chars b Hb) as (h1 & h2 & -> & Hhex & Hf).
      inversion Hf as [|? ? (_ & Hp1 & _) Hf']; subst.
      inversion Hf' as [|? ? (_ & Hp2 & _) _]; subst.
      cbn [app]. cbn [split]. rewrite N.eqb_refl.
      destruct (N.eqb_spec h1 (ord "%")); [contradiction|].
      destruct (N.eqb_spec h2 (ord "%")); [contradiction|].
      rewrite Hs. exists [], ((h1 :: h2 :: h) :: r). split; [reflexivity|].
      cbn [app map concat]. unfold unquote_item at 1.
      replace (take 2 (h1 :: h2 :: h)) with [h1; h2] by reflexivity.
      replace (drop 2 (h1 :: h2 :: h)) with h by reflexivity.
      rewrite Hhex. cbn [app]. congruence.
Qed.

Lemma quoted_all_safe bs : all_safe bs = true -> quoted bs = bs.
Proof.
  unfold all_safe, quoted. induction bs as [|b t IH]; intros H; [reflexivity|].
  cbn [forallb] in H. apply andb_true_iff in H as [Hb Ht].
  cbn [map concat]. unfold quoter at 1. rewrite Hb, IH by assumption. reflexivity.
Qed.

Lemma all_safe_ascii bs : all_safe bs = true -> forallb (fun b => b <=? 0x7F) bs = true.
Proof.
  unfold all_safe. rewrite !forallb_forall. intros H b Hb.
  apply N.leb_le. apply (safe_facts b). auto.
Qed.

Lemma quoted_no_percent bs :
  contains (ord "%") (quoted bs) = false -> all_safe bs = true.
Proof.
  unfold all_safe, quoted. induction bs as [|b t IH]; intros H; [reflexivity|].
  cbn [map concat] in H. unfold contains in H. rewrite existsb_app in H.
  apply orb_false_iff in H as [H1 H2]. cbn [forallb].
  rewrite (IH H2), andb_true_r.
  unfold quoter in H1. destruct (contains b _); [reflexivity|].
  cbn in H1. discriminate.
Qed.

Lemma quoted_chars bs :
  Forall (fun b => b < 256) bs ->
  Forall (fun c => c <= 0x7F /\ c <> ord ":") (quoted bs).
Proof.
  unfold quoted. induction 1 as [|b t Hb Ht IH]; [constructor|].
  cbn [map concat]. apply Forall_app. split; [apply quoter_chars; assumption|exact IH].
Qed.

Lemma quote_from_bytes_default bs :
  Forall (fun b => b < 256) bs ->
  quote_from_bytes bs (lit "/") = Ok (quoted bs).
Proof.
  intros Hb. unfold quote_from_bytes. destruct bs as [|b t]; [reflexivity|].
  fold default_safe. fold (all_safe (b :: t)).
  destruct (all_safe (b :: t)) eqn:Hs; [|reflexivity].
  rewrite (quoted_all_safe _ Hs). unfold Utf8.decode.
  rewrite scan_ascii by (apply all_safe_ascii; exact Hs).
  apply handle_somes.
Qed.

Lemma replace_back s :
  Forall (fun c => c <> ord ":") s ->
  replace (ord ":") (ord "/") (replace (ord "/") (ord ":") s) = s.
Proof.
  unfold replace. induction 1 as [|c t Hc Ht IH]; [reflexivity|].
  cbn [map]. rewrite IH. f_equal.
  destruct (N.eqb_spec c (ord "/")) as [->|Hn]; [reflexivity|].
  destruct (N.eqb_spec c (ord ":")); [contradiction|reflexivity].
Qed.

Lemma unquote_bits_ascii h s : forall run,
  forallb (fun b => b <=? 0x7F) s = true ->
  unquote_bits h run s = unquote_run h (rev s ++ run).
Proof.
  induction s as [|c t IH]; intros run H; [reflexivity|].
  cbn [forallb] in H. apply andb_true_iff in H as [Hc Ht].
  cbn [unquote_bits]. rewrite Hc. rewrite IH by assumption.
  cbn [rev]. rewrite <- app_assoc. reflexivity.
Qed.

Lemma unquote_to_bytes_quoted bs :
  Forall (fun b => b < 256) bs -> unquote_to_bytes (quoted bs) = Ok bs.
Proof.
  intros Hb. unfold unquote_to_bytes.
  destruct (quoted bs) as [|c q'] eqn:Eq.
  - destruct bs as [|b t]; [reflexivity|]. exfalso.
    unfold quoted in Eq. cbn [map concat] in Eq. unfold quoter in Eq at 1.
    destruct (contains b _); discriminate.
  - rewrite <- Eq. rewrite encode_ascii.
    2:{ apply forallb_forall. intros x Hx. apply N.leb_le.
        pose proof (quoted_chars bs Hb) as Hq. rewrite Forall_forall in Hq.
        apply Hq. apply list_elem_of_In. exact Hx. }
    destruct (split_quoted bs Hb) as (h & r & Hs & Hj). fold (quoted bs) in Hs.
    rewrite Hs. destruct r as [|i r'].
    + apply split_single in Hs. cbn in Hj. rewrite app_nil_r in Hj. congruence.
    + rewrite Hj. reflexivity.
Qed.

Lemma unquote_quoted bs url :
  Forall (fun b => b < 256) bs ->
  Utf8.decode Utf8.Replace bs = Ok url ->
  unquote (quoted bs) = Ok url.
Proof.
  intros Hb Hd. unfold unquote.
  destruct (contains (ord "%") (quoted bs)) eqn:Hp; cbn [negb].
  - assert (Hascii : forallb (fun b => b <=? 0x7F) (quoted bs) = true).
    { apply forallb_forall. intros x Hx. apply N.leb_le.
      pose proof (quoted_chars bs Hb) as Hq. rewrite Forall_forall in Hq.
      apply Hq. apply list_elem_of_In. exact Hx. }
    rewrite unquote_bits_ascii by assumption. rewrite app_nil_r.
    unfold unquote_run. destruct (rev (quoted bs)) eqn:Er.
    + apply (f_equal (@rev N)) in Er. rewrite rev_involutive in Er.
      rewrite Er in Hp. discriminate.
    + rewrite <- Er, rev_involutive, unquote_to_bytes_quoted by assumption.
      exact Hd.
  - apply quoted_no_percent in Hp. rewrite (quoted_all_safe _ Hp).
    unfold Utf8.decode in Hd.
    rewrite scan_ascii, handle_somes in Hd by (apply all_safe_ascii; exact Hp).
    exact Hd.
Qed.

Lemma roundtrip_aux url :
  encodable url = true ->
  exists name, url_to_filename url = Ok name /\ filename_to_url name = Ok url.
Proof.
  intros He. unfold url_to_filename, filename_to_url, quote.
  destruct url as [|c t] eqn:Eu; [exists []; split; reflexivity|].
  rewrite <- Eu in *. clear Eu.
  destruct (scan_encode url He) as (bs & Henc & Hb & Hscan).
  rewrite Henc, quote_from_bytes_default by assumption.
  eexists. split; [reflexivity|].
  rewrite replace_back.
  - apply unquote_quoted; [assumption|].
    unfold Utf8.decode. rewrite Hscan. apply handle_somes.
  - eapply Forall_impl; [apply quoted_chars; exact Hb|]. intros x [_ Hx]. exact Hx.
Qed.

(** C1.  For every URL whose characters are ASCII or percent-encodable
    (Unicode scalar values), [url_to_filename] returns a file name that
    [filename_to_url] decodes to the very same URL, and no other such URL
    has that file name: the encoding is injective and losslessly
    reversible. *)
Theorem url_filename_roundtrip url :
  encodable url = true ->
  exists name,
    url_to_filename url = Ok name /\
    filename_to_url name = Ok url /\
    forall url', encodable url' = true -> url_to_filename url' = Ok name ->
      url' = url.
Proof.
  intros He. destruct (roundtrip_aux url He) as (name & Hn & Hb).
  exists name. split; [exact Hn|]. split; [exact Hb|].
  intros url' He' Hn'.
  destruct (roundtrip_aux url' He') as (name' & Hn'' & Hb'). congruence.
Qed.

(** * Facts about the browser *)

Section Effects.

Variable E : Env.

Lemma bind_ok {A B} (m : M A) (k : A -> M B) st a st' :
  m st = (Ok a, st') -> bind m k st = k a st'.
Proof. intros H. unfold bind. rewrite H. reflexivity. Qed.

Lemma bind_raise {A B} (m : M A) (k : A -> M B) st e st' :
  m st = (Raise e, st') -> bind m k st = (Raise e, st').
Proof. intros H. unfold bind. rewrite H. reflexivity. Qed.


Lemma retrievals_app tr1 tr2 :
  retrievals (tr1 ++ tr2) = (retrievals tr1 + retrievals tr2)%nat.
Proof. induction tr1 as [|ev t IH]; cbn; [reflexivity|]. rewrite IH. lia. Qed.

Lemma bind_inv {A B} (m : M A) (k : A -> M B) st r st' :
  bind m k st = (r, st') ->
  (exists a st1, m st = (Ok a, st1) /\ k a st1 = (r, st')) \/
  (exists e, m st = (Raise e, st') /\ r = Raise e).
Proof.
  unfold bind. destruct (m st) as [[a|e] st1]; intros H.
  - left. eauto.
  - right. injection H as <- <-. eauto.
Qed.

Lemma catch_inv {A} (m : M A) (h : exn -> M A) st r st' :
  catch m h st = (r, st') ->
  (exists a, m st = (Ok a, st') /\ r = Ok a) \/
  (exists e st1, m st = (Raise e, st1) /\ h e st1 = (r, st')).
Proof.
  unfold catch. destruct (m st) as [[a|e] st1]; intros H.
  - left. injection H as <- <-. eauto.
  - right. eauto.
Qed.

Lemma uses_weaken {A} n n' (m : M A) : uses n m -> (n <= n')%nat -> uses n' m.
Proof. intros H Hn st r st' Hm. destruct (H _ _ _ Hm). split; [assumption|lia]. Qed.

Lemma uses_ret {A} (a : A) : uses 0 (ret a).
Proof. intros st r st' [= <- <-]. split; [reflexivity|lia]. Qed.

Lemma uses_raise {A} e : uses 0 (@raise A e).
Proof. intros st r st' [= <- <-]. split; [reflexivity|lia]. Qed.

Lemma uses_lift {A} (x : result A) : uses 0 (lift x).
Proof. intros st r st' [= <- <-]. split; [reflexivity|lia]. Qed.

Lemma uses_get_self : uses 0 get_self.
Proof. intros st r st' [= <- <-]. split; [reflexivity|lia]. Qed.

Lemma uses_tick : uses 0 tick.
Proof. intros st r st' [= <- <-]. split; [reflexivity|cbn; lia]. Qed.

Lemma uses_emit ev : uses (if is_retrieval ev then 1 else 0) (emit ev).
Proof.
  intros st r st' [= <- <-]. split; [reflexivity|]. cbn.
  rewrite retrievals_app. cbn. lia.
Qed.

Lemma uses_log l msg : uses 0 (emit (Log l msg)).
Proof. apply (uses_emit (Log l msg)). Qed.

Lemma uses_set_file path data : uses 0 (set_file path data).
Proof. intros st r st' [= <- <-]. split; [reflexivity|cbn; lia]. Qed.

Lemma uses_bind {A B} n1 n2 (m : M A) (k : A -> M B) :
  uses n1 m -> (forall a, uses n2 (k a)) -> uses (n1 + n2) (bind m k).
Proof.
  intros Hm Hk st r st' H.
  apply bind_inv in H as [(a & st1 & H1 & H2)|(e & H1 & ->)].
  - destruct (Hm _ _ _ H1) as [S1 R1]. destruct (Hk a _ _ _ H2) as [S2 R2].
    split; [congruence|lia].
  - destruct (Hm _ _ _ H1) as [S1 R1]. split; [assumption|lia].
Qed.

Lemma uses_catch {A} n1 n2 (m : M A) (h : exn -> M A) :
  uses n1 m -> (forall e, uses n2 (h e)) -> uses (n1 + n2) (catch m h).
Proof.
  intros Hm Hh st r st' H.
  apply catch_inv in H as [(a & H1 & ->)|(e & st1 & H1 & H2)].
  - destruct (Hm _ _ _ H1) as [S1 R1]. split; [assumption|lia].
  - destruct (Hm _ _ _ H1) as [S1 R1]. destruct (Hh e _ _ _ H2) as [S2 R2].
    split; [congruence|lia].
Qed.

Lemma uses_if {A} n (c : bool) (m1 m2 : M A) :
  uses n m1 -> uses n m2 -> uses n (if c then m1 else m2).
Proof. destruct c; auto. Qed.

Lemma uses_read_file path : uses 1 (read_file path).
Proof.
  unfold read_file. apply (uses_bind 1 0); [apply (uses_emit (DiskRead path))|].
  intros _ st r st' H. destruct (files (world st) !! path) as [[errno|data]|];
    injection H as <- <-; (split; [reflexivity|lia]).
Qed.

Lemma uses_write_file path raw : uses 0 (write_file path raw).
Proof.
  unfold write_file. apply (uses_bind 0 0); [apply (uses_emit (DiskWrite path))|].
  intros _. apply (uses_bind 0 0).
  { intros st r st' [= <- <-]. split; [reflexivity|lia]. }
  intros st0. destruct (files (world st0) !! path) as [[errno|data]|].
  - apply uses_raise.
  - apply (uses_bind 0 0); [apply uses_set_file|]. intros _.
    apply (uses_bind 0 0); [apply uses_lift|]. intros d. apply uses_set_file.
  - apply (uses_bind 0 0); [apply uses_set_file|]. intros _.
    apply (uses_bind 0 0); [apply uses_lift|]. intros d. apply uses_set_file.
Qed.


Lemma get_page_hit url as_json st raw :
  cache (self st) !! url = Some raw ->
  get_page E url as_json true st =
  (loads_if E as_json raw,
   logged st INFO (lit "Loading content instead of URL " ++ url
                   ++ lit " from in-memory cache")).
Proof.
  intros H. unfold get_page, bind, get_self. rewrite H. reflexivity.
Qed.


Lemma uses__decode_content url raw as_json : uses 0 (_decode_content E url raw as_json).
Proof.
  unfold _decode_content. apply (uses_catch 0 0); [apply uses_lift|].
  intros e. destruct (isinstance e cJSONDecodeError); [|apply uses_raise].
  apply (uses_bind 0 0); [apply uses_log|]. intros _. apply uses_raise.
Qed.

Lemma uses_first_of {A} (l : list A) : uses 0 (first_of l).
Proof. destruct l; [apply uses_raise|apply uses_ret]. Qed.

Ltac uses0 :=
  repeat first
    [ apply uses_ret | apply uses_raise | apply uses_lift | apply uses_log
    | apply uses_tick | apply uses_get_self | apply uses_first_of
    | apply uses__decode_content | apply uses_write_file | apply uses_set_file
    | apply (uses_emit (CertProbe _))
    | apply (uses_bind 0 0); [|intros ?]
    | apply (uses_catch 0 0); [|intros ?]
    | match goal with |- uses 0 (if ?c then _ else _) => destruct c end ].

Lemma uses__get url as_json : uses 1 (_get E url as_json).
Proof.
  unfold _get. apply (uses_bind 0 1); [apply uses_get_self|]. intros b.
  apply (uses_bind 0 1); [apply uses_lift|]. intros parsed_url.
  apply (uses_bind 1 0).
  - apply (uses_catch 1 0).
    + apply (uses_bind 1 0); [apply (uses_emit (NetGet url))|]. intros _. uses0.
    + intros e. uses0.
  - intros r. uses0.
Qed.


Lemma uses_load_fixture b url filename : uses 1 (load_fixture b url filename).
Proof.
  unfold load_fixture. apply (uses_catch 1 0); [apply uses_read_file|].
  intros e. destruct (isinstance e cOSError); [|apply uses_raise].
  destruct e; try apply uses_raise.
  destruct (errno =? ENOENT)%Z; [|apply uses_raise].
  apply (uses_bind 0 0); [apply uses_log|]. intros _. apply uses_raise.
Qed.

Lemma uses_resolve b url filename as_json use_cache :
  uses 1 (resolve E b url filename as_json use_cache).
Proof.
  unfold resolve. destruct (load b && use_cache).
  - apply (uses_bind 0 1); [apply uses_log|]. intros _.
    apply (uses_bind 1 0); [apply uses_load_fixture|intros ?; apply uses_lift].
  - apply (uses_bind 0 1); [apply uses_lift|]. intros ?. apply uses__get.
Qed.

Lemma uses_persist b url filename raw : uses 0 (persist b url filename raw).
Proof.
  unfold persist. destruct (save b); [|apply uses_ret].
  apply (uses_bind 0 0); [apply uses_log|]. intros _. apply uses_write_file.
Qed.

Lemma with_cache_id b : with_cache b (cache b) = b.
Proof. destruct b; reflexivity. Qed.

Lemma get_page_miss_eq url as_json use_cache st :
  (use_cache = false \/ cache (self st) !! url = None) ->
  get_page E url as_json use_cache st =
  get_page_miss E url as_json use_cache (self st) st.
Proof.
  intros H. unfold get_page, bind at 1, get_self.
  destruct H as [->| ->]; [destruct (cache (self st) !! url)|destruct use_cache];
    reflexivity.
Qed.

Lemma get_page_miss_post url as_json use_cache st r st1 :
  get_page_miss E url as_json use_cache (self st) st = (r, st1) ->
  (retrievals (trace (world st1)) <= retrievals (trace (world st)) + 1)%nat /\
  forall body, r = Ok body ->
    self st1 = with_cache (self st)
                 (<[url := dumps_if E as_json body]> (cache (self st))).
Proof.
  unfold get_page_miss. intros H.
  apply bind_inv in H as [(fn & s0 & H0 & H)|(e & H0 & ->)].
  2:{ injection H0 as _ <-. split; [lia|discriminate]. }
  injection H0 as _ <-.
  apply bind_inv in H as [(body & s1 & H1 & H)|(e & H1 & ->)].
  2:{ apply uses_resolve in H1 as [_ ?]. split; [lia|discriminate]. }
  apply uses_resolve in H1 as [S1 R1]. cbv zeta in H.
  apply bind_inv in H as [(u & s2 & H2 & H)|(e & H2 & ->)].
  2:{ apply uses_persist in H2 as [_ ?]. split; [lia|discriminate]. }
  apply uses_persist in H2 as [S2 R2].
  unfold bind, cache_store, ret in H. cbn in H. injection H as <- <-.
  cbn. split; [lia|]. intros body' [= <-].
  rewrite S2, S1. reflexivity.
Qed.

(** What a call of [get_page] leaves behind. *)
Lemma get_page_post url as_json use_cache st r st1 :
  get_page E url as_json use_cache st = (r, st1) ->
  (retrievals (trace (world st1)) <= retrievals (trace (world st)) + 1)%nat /\
  forall body, r = Ok body ->
    exists raw,
      self st1 = with_cache (self st) (<[url := raw]> (cache (self st))) /\
      (match cache (self st) !! url, use_cache with
       | Some hit, true => raw = hit
       | _, _ => raw = dumps_if E as_json body
       end).
Proof.
  intros H.
  destruct (cache (self st) !! url) as [hit|] eqn:Hc; [destruct use_cache|].
  - rewrite (get_page_hit url as_json st hit Hc) in H. injection H as <- <-.
    cbn. rewrite retrievals_app. cbn. split; [lia|].
    intros body _. exists hit. split; [|reflexivity].
    rewrite insert_id by assumption. symmetry. apply with_cache_id.
  - rewrite get_page_miss_eq in H by auto.
    apply get_page_miss_post in H as [R Hb]. split; [assumption|].
    intros body Hr. exists (dumps_if E as_json body). split; [auto|reflexivity].
  - rewrite get_page_miss_eq in H by auto.
    apply get_page_miss_post in H as [R Hb]. split; [assumption|].
    intros body Hr. exists (dumps_if E as_json body).
    split; [auto|destruct use_cache; reflexivity].
Qed.

End Effects.

Section Cache.

Variable E : Env.

(** The text a successful call leaves in the cache, told from the result
    of the call and from the cache before it. *)
Lemma get_page_ok_cached url as_json use_cache st body st1 :
  get_page E url as_json use_cache st = (Ok body, st1) ->
  exists raw,
    cache (self st1) !! url = Some raw /\
    (use_cache = false \/ cache (self st) !! url = None ->
     match as_json return content as_json -> Prop with
     | false => fun text => raw = text
     | true => fun value => raw = json_dumps E value
     end body) /\
    (forall hit, use_cache = true -> cache (self st) !! url = Some hit ->
     raw = hit /\
     match as_json return content as_json -> Prop with
     | false => fun text => hit = text
     | true => fun value => json_loads E hit = Ok value
     end body).
Proof.
  intros H. destruct (get_page_post E url as_json use_cache st _ _ H) as [_ Hb].
  destruct (Hb body eq_refl) as (raw & Hs & Hraw).
  exists raw. split; [rewrite Hs; cbn; apply lookup_insert_eq|]. split.
  - intros Hm.
    assert (Hd : raw = dumps_if E as_json body).
    { destruct Hm as [->|Hn].
      - destruct (cache (self st) !! url); exact Hraw.
      - rewrite Hn in Hraw. exact Hraw. }
    destruct as_json; exact Hd.
  - intros hit -> Hc. rewrite Hc in Hraw. split; [exact Hraw|].
    rewrite (get_page_hit E url as_json st hit Hc) in H.
    destruct as_json; unfold loads_if in H; injection H as H _.
    + exact H.
    + congruence.
Qed.

(** C2.  After a successful [get_page] with caching enabled, a second
    [get_page] for the same URL with caching enabled answers from the
    in-memory cache: it returns the memoized text, which for a text page is
    the very text the first call returned, or [json.loads] of it when JSON
    is asked for; it leaves disk and network alone and only adds one line
    to the log, whatever the [load] flag says, so that the two calls
    together perform at most one retrieval. *)
Theorem get_page_twice_retrieves_once url as_json1 st body st1 :
  get_page E url as_json1 true st = (Ok body, st1) ->
  exists raw,
    cache (self st1) !! url = Some raw /\
    match as_json1 return content as_json1 -> Prop with
    | false => fun text => raw = text
    | true => fun value =>
      (cache (self st) !! url = None -> raw = json_dumps E value) /\
      (forall hit, cache (self st) !! url = Some hit ->
       raw = hit /\ json_loads E hit = Ok value)
    end body /\
    get_page E url false true st1 =
      (Ok raw, logged st1 INFO (hit_message url)) /\
    get_page E url true true st1 =
      (json_loads E raw, logged st1 INFO (hit_message url)) /\
    forall as_json2,
      (retrievals (trace (world (snd (get_page E url as_json2 true st1))))
       <= retrievals (trace (world st)) + 1)%nat.
Proof.
  intros H. destruct (get_page_post E url as_json1 true st _ _ H) as [R _].
  destruct (get_page_ok_cached url as_json1 true st body st1 H)
    as (raw & Hc & Hmiss & Hhit).
  exists raw. split; [exact Hc|]. split.
  - destruct as_json1.
    + split; [intros Hn; apply Hmiss; auto|].
      intros hit Hh. apply (Hhit hit eq_refl Hh).
    + destruct (cache (self st) !! url) as [hit|] eqn:Hh.
      * destruct (Hhit hit eq_refl eq_refl) as [-> ->]. reflexivity.
      * apply Hmiss. auto.
  - split; [apply (get_page_hit E url false st1 raw Hc)|].
    split; [apply (get_page_hit E url true st1 raw Hc)|].
    intros as_json2. rewrite (get_page_hit E url as_json2 st1 raw Hc).
    cbn. rewrite retrievals_app. cbn. lia.
Qed.

(** C5.  After every successful [get_page], with or without caching, the
    in-memory cache holds a text for the URL: when the call did not answer
    from the cache it is the raw content just obtained, the text itself or
    [json.dumps] of the JSON value, and otherwise the entry that was there.
    Any later call for the URL with caching enabled returns that memoized
    text, or [json.loads] of it. *)
Theorem get_page_memoizes url as_json use_cache st body st1 :
  get_page E url as_json use_cache st = (Ok body, st1) ->
  exists raw,
    cache (self st1) !! url = Some raw /\
    (use_cache = false \/ cache (self st) !! url = None ->
     match as_json return content as_json -> Prop with
     | false => fun text => raw = text
     | true => fun value => raw = json_dumps E value
     end body) /\
    (forall hit, use_cache = true -> cache (self st) !! url = Some hit ->
     raw = hit) /\
    get_page E url false true st1 =
      (Ok raw, logged st1 INFO (hit_message url)) /\
    get_page E url true true st1 =
      (json_loads E raw, logged st1 INFO (hit_message url)).
Proof.
  intros H.
  destruct (get_page_ok_cached url as_json use_cache st body st1 H)
    as (raw & Hc & Hmiss & Hhit).
  exists raw. split; [exact Hc|]. split; [exact Hmiss|]. split.
  - intros hit Hu Hh. apply (Hhit hit Hu Hh).
  - split; [apply (get_page_hit E url false st1 raw Hc)|].
    apply (get_page_hit E url true st1 raw Hc).
Qed.

(** C3, as amended.  In load mode, with caching applying and no in-memory
    entry for the URL, [get_page] for a URL whose fixture file does not
    exist raises [CacheNotFoundError], a [DownloadError] and not an
    [OSError]; when opening the fixture fails with any other [errno] that
    [OSError] reaches the caller as it is. *)
Theorem load_miss_raises_CacheNotFound url as_json st filename :
  load (self st) = true ->
  cache (self st) !! url = None ->
  url_to_filename url = Ok filename ->
  let path := os_path_join (load_dir (self st)) filename in
  let e := CacheNotFoundError (not_found_message url filename) in
  (files (world st) !! path = None ->
   fst (get_page E url as_json true st) = Raise e /\
   isinstance e cDownloadError = true /\ isinstance e cOSError = false) /\
  (forall errno, files (world st) !! path = Some (inl errno) -> errno <> ENOENT ->
   fst (get_page E url as_json true st) = Raise (OSError errno)).
Proof.
  intros Hl Hc Hf path e.
  rewrite get_page_miss_eq by auto.
  unfold get_page_miss, resolve, load_fixture, read_file.
  unfold bind, lift, catch, emit, log_info, raise. rewrite Hf, Hl. cbn.
  fold path. split.
  - intros ->. cbn. repeat split; reflexivity.
  - intros errno -> Hne. cbn.
    destruct (Z.eqb_spec errno ENOENT); [contradiction|reflexivity].
Qed.


(** C6.  In dry-run mode [json_rpc_post] returns the empty mapping for
    every URL, method and parameters, and all it does is to log one
    warning: no request is sent, disk and clock are untouched. *)
Theorem json_rpc_post_dry_run url method params st :
  dry_run (self st) = true ->
  json_rpc_post E url method params st =
    (Ok (JObj []), logged st WARNING (dry_run_message E url method params)).
Proof.
  intros H. unfold json_rpc_post, bind, get_self. rewrite H. reflexivity.
Qed.

End Cache.

Section Failures.

Variable E : Env.

(** C9.  When the GET fails with an [SSLError]: if [import OpenSSL] fails,
    [_get] raises that same error, which is no [DownloadError]; if the
    import succeeds and the certificate probe goes through, [_get] raises a
    [DownloadError] whose message names the issuer organization and the
    SHA-1 and SHA-256 digests.  (A URL that [urlparse] rejects never gets
    as far as the GET: [_get] raises the error of [urlparse].) *)
Theorem tls_failure_without_introspection_reraised url as_json st :
  match urlparse E url with
  | Raise e => _get E url as_json st = (Raise e, st)
  | Ok (scheme, netloc) =>
    forall e,
      session_get E (clock (world st)) (scheme ++ lit "://")
        default_retries url (auth (self st)) 30 (headers (self st)) = Raise e ->
      isinstance e (cRequests SSLError) = true ->
      (import_OpenSSL E = false ->
       fst (_get E url as_json st) = Raise e /\ isinstance e cDownloadError = false) /\
      (import_OpenSSL E = true ->
       forall cert x509 component rest issuer sha1digest sha256digest,
         get_server_certificate E (S (clock (world st))) netloc 443 = Ok cert ->
         load_certificate E cert = Ok x509 ->
         List.filter (fun c => str_eqb (fst c) (lit "O")) (issuer_components x509)
           = component :: rest ->
         Utf8.decode Utf8.Ignore (snd component) = Ok issuer ->
         Utf8.decode Utf8.Ignore (digest x509 (lit "sha1")) = Ok sha1digest ->
         Utf8.decode Utf8.Ignore (digest x509 (lit "sha256")) = Ok sha256digest ->
         fst (_get E url as_json st) =
           Raise (DownloadError (certificate_message netloc issuer
                                   sha1digest sha256digest)))
  end.
Proof.
  destruct (urlparse E url) as [[scheme netloc]|e0] eqn:Hparse.
  2:{ unfold _get, bind, get_self, lift. rewrite Hparse. reflexivity. }
  intros e Hget Hssl. split.
  - intros Himp. split.
    + unfold _get, bind, get_self, catch, emit, tick, lift, raise. cbn.
      rewrite Hparse. cbn. rewrite Hget, Hssl, Himp. reflexivity.
    + destruct e; try discriminate Hssl. destruct c; try discriminate Hssl.
      reflexivity.
  - intros Himp cert x509 component rest issuer s1 s256 Hc Hx Hf Hi H1 H256.
    unfold _get, bind, get_self, catch, emit, tick, lift, raise, first_of, log_error.
    cbn. rewrite Hparse. cbn.
    rewrite Hget, Hssl, Himp. cbn. rewrite Hc, Hx. cbn. rewrite Hf. cbn.
    rewrite Hi, H1, H256.
    reflexivity.
Qed.

(** The test [code == 101]: it holds of the integer 101 and of a float of
    that value, and of nothing else. *)
Lemma py_eq_int_101 code :
  py_eq_int code 101 =
  match code with
  | JInt n => (n =? 101)%Z
  | JFloat (S754_finite false m e) =>
    if (0 <=? e)%Z then (Z.pos m * 2 ^ e =? 101)%Z
    else (Z.pos m =? 101 * 2 ^ (- e))%Z
  | _ => false
  end.
Proof.
  destruct code as [|b|n|f| | |]; try reflexivity.
  - destruct b; reflexivity.
  - destruct f as [s|s| |s m e]; try reflexivity. destruct s; [|reflexivity].
    unfold py_eq_int, float_eq_int. cbv zeta. destruct (Z.leb_spec 0 e).
    + apply Z.eqb_neq. pose proof (Z.pow_nonneg 2 e ltac:(lia)). nia.
    + apply Z.eqb_neq. pose proof (Z.pow_nonneg 2 (- e) ltac:(lia)). nia.
Qed.

(** C4.  [json_rpc_get] on a decoded response object: without an [error]
    field, or with [error] being null, the response is returned; with an
    [error] object holding [code] and [message], the code 101 (the integer,
    or a float of that value) raises [BugNotFoundError] and any other code
    raises [BugzillaError], both carrying the request URL, the code and the
    message.  [BugNotFoundError] is a subclass of [BugzillaError] and not
    the other way round. *)
Theorem json_rpc_get_error_field url method params use_cache st get_url fields st1 :
  rpc_get_url E url method params = Ok get_url ->
  get_json E (replace_str (lit "http://dummy") [] get_url) use_cache st
    = (Ok (JObj fields), st1) ->
  json_rpc_get E url method params use_cache st =
    (match dict_get fields (lit "error") with
     | None | Some JNull => Ok (JObj fields)
     | Some (JObj error) =>
       match dict_get error (lit "code"), dict_get error (lit "message") with
       | Some code, Some message =>
         match code with
         | JInt n =>
           if (n =? 101)%Z
           then Raise (BugNotFoundError get_url code message)
           else Raise (BugzillaError get_url code message)
         | JFloat (S754_finite false m e) =>
           if (if (0 <=? e)%Z then (Z.pos m * 2 ^ e =? 101)%Z
               else (Z.pos m =? 101 * 2 ^ (- e))%Z)
           then Raise (BugNotFoundError get_url code message)
           else Raise (BugzillaError get_url code message)
         | _ => Raise (BugzillaError get_url code message)
         end
       | None, _ => Raise (KeyError (lit "code"))
       | Some _, None => Raise (KeyError (lit "message"))
       end
     | Some _ => Raise TypeError
     end, st1) /\
  issubclass cBugNotFoundError cBugzillaError = true /\
  issubclass cBugzillaError cBugNotFoundError = false.
Proof.
  intros Hu Hg. split; [|split; reflexivity].
  unfold json_rpc_get. rewrite Hu.
  unfold bind at 1. unfold lift at 1.
  rewrite (bind_ok _ _ _ _ _ Hg).
  unfold py_in, py_getitem, bind, lift, ret, raise.
  destruct (dict_get fields (lit "error")) as [err|]; [|reflexivity].
  destruct err; try reflexivity. cbn [is_None negb].
  destruct (dict_get fields0 (lit "code")) as [code|]; [|reflexivity].
  rewrite py_eq_int_101.
  destruct (dict_get fields0 (lit "message")) as [message|].
  - destruct code as [|b|n|f| | |]; try reflexivity.
    + destruct (n =? 101)%Z; reflexivity.
    + destruct f as [s|s| |s m e]; try reflexivity. destruct s; [reflexivity|].
      destruct (if (0 <=? e)%Z then (Z.pos m * 2 ^ e =? 101)%Z
                else (Z.pos m =? 101 * 2 ^ (- e))%Z); reflexivity.
  - destruct code as [|b|n|f| | |]; try reflexivity.
    + destruct (n =? 101)%Z; reflexivity.
    + destruct f as [s|s| |s m e]; try reflexivity. destruct s; [reflexivity|].
      destruct (if (0 <=? e)%Z then (Z.pos m * 2 ^ e =? 101)%Z
                else (Z.pos m =? 101 * 2 ^ (- e))%Z); reflexivity.
Qed.

End Failures.

Section Rpc.

Variable E : Env.

Lemma count_posts_app tr1 tr2 :
  count_posts (tr1 ++ tr2) = (count_posts tr1 + count_posts tr2)%nat.
Proof. induction tr1 as [|ev t IH]; cbn; [reflexivity|]. rewrite IH. lia. Qed.


(** One pass through the body of the loop. *)
Lemma post_attempts_cons b absolute_url data i rest st :
  post_attempts E b absolute_url data (i :: rest) st =
  let st1 := {| self := self st;
                world := {| files := files (world st);
                            clock := S (clock (world st));
                            trace := trace (world st)
                                     ++ [NetPost absolute_url data] |} |} in
  match requests_post E (clock (world st)) absolute_url data (auth b)
          (post_headers b) with
  | Ok r =>
    match raise_for_status r with
    | Ok _ => (Ok (Some r), st1)
    | Raise e => (Raise e, st1)
    end
  | Raise e =>
    if isinstance e (cRequests ConnectionError) then
      post_attempts E b absolute_url data rest
        (logged st1 INFO (lit "Connection error encountered accessing "
                          ++ absolute_url ++ lit ", retrying try "
                          ++ str_of_int i))
    else (Raise e, st1)
  end.
Proof.
  cbn [post_attempts]. unfold catch, bind, emit, tick, lift, ret, raise, log_info.
  cbn. fold (post_headers b).
  destruct (requests_post E _ _ _ _ _) as [r|e]; cbn.
  - unfold raise_for_status.
    destruct ((400 <=? status_code r)%Z && (status_code r <? 600)%Z); reflexivity.
  - destruct (isinstance e (cRequests ConnectionError)); reflexivity.
Qed.

Lemma post_attempts_bound b absolute_url data tries : forall st,
  (count_posts (trace (world (snd (post_attempts E b absolute_url data tries st))))
   <= count_posts (trace (world st)) + length tries)%nat.
Proof.
  induction tries as [|i rest IH]; intros st; [cbn; lia|].
  rewrite post_attempts_cons. cbv zeta.
  destruct (requests_post E _ _ _ _ _) as [r|e].
  - destruct (raise_for_status r); cbn; rewrite count_posts_app; cbn; lia.
  - destruct (isinstance e (cRequests ConnectionError)).
    + etransitivity; [apply IH|]. cbn. rewrite !count_posts_app. cbn. lia.
    + cbn. rewrite count_posts_app. cbn. lia.
Qed.

Lemma post_attempts_run b absolute_url data tries : forall st k,
  let attempt j := requests_post E (clock (world st) + j) absolute_url data (auth b)
                     (post_headers b) in
  let out := post_attempts E b absolute_url data tries st in
  let posts := count_posts (trace (world (snd out))) in
  connection_errors attempt k ->
  (k = length tries ->
   fst out = Ok None /\ posts = (count_posts (trace (world st)) + k)%nat) /\
  ((k < length tries)%nat ->
   (forall r, attempt k = Ok r ->
      posts = (count_posts (trace (world st)) + k + 1)%nat /\
      fst out = match raise_for_status r with
                | Ok _ => Ok (Some r)
                | Raise e => Raise e
                end) /\
   (forall e, attempt k = Raise e ->
      isinstance e (cRequests ConnectionError) = false ->
      posts = (count_posts (trace (world st)) + k + 1)%nat /\ fst out = Raise e)).
Proof.
  induction tries as [|i rest IH]; intros st k attempt out posts Hk.
  - split; [|cbn; lia]. intros ->. subst posts out. cbn. split; [reflexivity|lia].
  - subst posts out. rewrite post_attempts_cons. cbv zeta.
    destruct k as [|k].
    + split; [discriminate|]. intros _. subst attempt. cbn beta.
      rewrite Nat.add_0_r. split.
      * intros r ->. destruct (raise_for_status r); cbn;
          rewrite count_posts_app; cbn; split; (lia || reflexivity).
      * intros e -> ->. cbn. rewrite count_posts_app. cbn. split; (lia || reflexivity).
    + destruct (Hk 0%nat ltac:(lia)) as (e0 & He0 & Hc0).
      subst attempt. cbn beta in He0. rewrite Nat.add_0_r in He0.
      rewrite He0, Hc0.
      match goal with |- context [post_attempts E b absolute_url data rest ?s] =>
        set (s1 := s) end.
      assert (Hcnt : count_posts (trace (world s1))
                     = (count_posts (trace (world st)) + 1)%nat).
      { subst s1. cbn. rewrite !count_posts_app. cbn. lia. }
      assert (Hclk : clock (world s1) = S (clock (world st))) by reflexivity.
      clearbody s1.
      specialize (IH s1 k). cbv zeta in IH. rewrite Hclk, Hcnt in IH.
      assert (Hk' : connection_errors
                (fun j => requests_post E (S (clock (world st)) + j) absolute_url
                            data (auth b) (post_headers b)) k).
      { intros j Hj. destruct (Hk (S j) ltac:(lia)) as (e & He & Hc).
        exists e. split; [|exact Hc]. cbn beta in He.
        replace (clock (world st) + S j)%nat with (S (clock (world st)) + j)%nat in He
          by lia. exact He. }
      specialize (IH Hk'). destruct IH as [IH1 IH2].
      split.
      * intros [= Hlen]. destruct (IH1 Hlen) as [-> ->]. split; [reflexivity|lia].
      * intros Hlt. cbn [length] in Hlt. destruct (IH2 ltac:(lia)) as [A B].
        replace (clock (world st) + S k)%nat with (S (clock (world st)) + k)%nat
          by lia.
        split.
        -- intros r Hr. destruct (A r Hr) as [-> ->]. split; [lia|reflexivity].
        -- intros e He Hc. destruct (B e He Hc) as [-> ->]. split; [lia|reflexivity].
Qed.


Lemma json_rpc_post_after_join url method params st absolute_url :
  dry_run (self st) = false ->
  join_root E (root_url (self st)) url = Ok absolute_url ->
  let b := self st in
  let data := json_dumps E (JObj [(lit "method", JStr method);
                                  (lit "params", JArr [params])]) in
  let attempt j := requests_post E (clock (world st) + j) absolute_url data (auth b)
                     (post_headers b) in
  let out := json_rpc_post E url method params st in
  let posts := count_posts (trace (world (snd out))) in
  let before := count_posts (trace (world st)) in
  (posts <= before + 6)%nat /\
  forall k, connection_errors attempt k ->
    (k = 6%nat -> fst out = Ok JNull /\ posts = (before + 6)%nat) /\
    ((k < 6)%nat ->
     (forall r, attempt k = Ok r ->
        posts = (before + k + 1)%nat /\
        fst out = match raise_for_status r with
                  | Raise e => Raise e
                  | Ok _ => match r_text r with
                            | [] => Ok JNull
                            | _ => r_json r
                            end
                  end) /\
     (forall e, attempt k = Raise e ->
        isinstance e (cRequests ConnectionError) = false ->
        posts = (before + k + 1)%nat /\ fst out = Raise e)).
Proof.
  intros Hdry Hjoin b data attempt out posts before.
  assert (Hout : out =
    match post_attempts E b absolute_url data range_1_7 st with
    | (Ok None, st') =>
      (Ok JNull,
       logged st' WARNING
         (lit "Request to " ++ absolute_url
          ++ lit " was not successful after multiple retries, giving up"))
    | (Ok (Some r), st') =>
      (match r_text r with [] => Ok JNull | _ => r_json r end, st')
    | (Raise e, st') => (Raise e, st')
    end).
  { subst out. unfold json_rpc_post, bind at 1, get_self. rewrite Hdry, Hjoin.
    unfold bind at 1, lift at 1. fold b. fold data. unfold bind.
    destruct (post_attempts E b absolute_url data range_1_7 st) as [[[r|]|e] st'];
      [destruct (r_text r)| |]; reflexivity. }
  assert (Hposts : posts = count_posts (trace (world
            (snd (post_attempts E b absolute_url data range_1_7 st))))).
  { subst posts. rewrite Hout.
    destruct (post_attempts E b absolute_url data range_1_7 st) as [[[r|]|e] st'];
      cbn; [reflexivity| |reflexivity].
    rewrite count_posts_app. cbn. lia. }
  split.
  { rewrite Hposts. apply (post_attempts_bound b absolute_url data range_1_7 st). }
  intros k Hk.
  destruct (post_attempts_run b absolute_url data range_1_7 st k Hk) as [H6 Hlt].
  change (length range_1_7) with 6%nat in H6, Hlt.
  rewrite Hposts. split.
  - intros Hk6. destruct (H6 Hk6) as [Hf Hc]. rewrite Hk6 in Hc.
    split; [|exact Hc].
    rewrite Hout.
    destruct (post_attempts E b absolute_url data range_1_7 st) as [[[r|]|e] st'];
      cbn in Hf; try discriminate. reflexivity.
  - intros Hk6. destruct (Hlt Hk6) as [A B]. split.
    + intros r Hr. destruct (A r Hr) as [Hc Hf]. split; [exact Hc|].
      rewrite Hout.
      destruct (post_attempts E b absolute_url data range_1_7 st) as [[[r'|]|e] st'];
        cbn in Hf; destruct (raise_for_status r); try discriminate;
        injection Hf as ->; reflexivity.
    + intros e He Hc. destruct (B e He Hc) as [Hn Hf]. split; [exact Hn|].
      rewrite Hout.
      destruct (post_attempts E b absolute_url data range_1_7 st) as [[[r'|]|e'] st'];
        cbn in Hf; try discriminate. injection Hf as ->. reflexivity.
Qed.

(** C7.  Outside dry-run mode [json_rpc_post] sends the request at most 6
    times.  While the attempts fail with connection errors it tries again:
    after 6 such failures it returns [None] without raising; an attempt
    that is answered ends the loop, an error status raising at once and a
    good status returning the decoded body, or [None] when the body is
    empty; any other exception is not retried.  When joining the URL to
    the root fails, that error is raised before any request. *)
Theorem json_rpc_post_retry_budget url method params st :
  dry_run (self st) = false ->
  let b := self st in
  let out := json_rpc_post E url method params st in
  let posts := count_posts (trace (world (snd out))) in
  let before := count_posts (trace (world st)) in
  (posts <= before + 6)%nat /\
  match join_root E (root_url b) url with
  | Raise e => out = (Raise e, st)
  | Ok absolute_url =>
    let data := json_dumps E (JObj [(lit "method", JStr method);
                                    (lit "params", JArr [params])]) in
    let attempt j := requests_post E (clock (world st) + j) absolute_url data
                       (auth b) (post_headers b) in
    forall k, connection_errors attempt k ->
      (k = 6%nat -> fst out = Ok JNull /\ posts = (before + 6)%nat) /\
      ((k < 6)%nat ->
       (forall r, attempt k = Ok r ->
          posts = (before + k + 1)%nat /\
          fst out = match raise_for_status r with
                    | Raise e => Raise e
                    | Ok _ => match r_text r with
                              | [] => Ok JNull
                              | _ => r_json r
                              end
                    end) /\
       (forall e, attempt k = Raise e ->
          isinstance e (cRequests ConnectionError) = false ->
          posts = (before + k + 1)%nat /\ fst out = Raise e))
  end.
Proof.
  intros Hdry b out posts before.
  destruct (join_root E (root_url b) url) as [absolute_url|e] eqn:Hjoin.
  - destruct (json_rpc_post_after_join url method params st absolute_url Hdry Hjoin)
      as [Hb Hk].
    split; [exact Hb|exact Hk].
  - assert (Hout : out = (Raise e, st)).
    { subst out. unfold json_rpc_post, bind at 1, get_self. rewrite Hdry.
      fold b. rewrite Hjoin. reflexivity. }
    split; [|exact Hout]. subst posts before. rewrite Hout. cbn. lia.
Qed.



End Rpc.

(** * The statements at sample inputs *)

Example url_to_filename_doctest : url_to_filename demo_url = Ok demo_filename.
Proof. reflexivity. Qed.

Example filename_to_url_doctest : filename_to_url demo_filename = Ok demo_url.
Proof. reflexivity. Qed.

Lemma url_filename_witness :
  exists name,
    url_to_filename demo_url = Ok name /\
    filename_to_url name = Ok demo_url /\
    forall url', encodable url' = true -> url_to_filename url' = Ok name ->
      url' = demo_url.
Proof. exact (url_filename_roundtrip demo_url eq_refl). Defined.

Lemma get_page_twice_witness :
  let E := sample_env no_json online online false in
  let st := sample_state true false fixture in
  let st1 := snd (get_page E demo_url false true st) in
  cache (self st1) !! demo_url = Some (lit "hello") /\
  get_page E demo_url false true st1 =
    (Ok (lit "hello"), logged st1 INFO (hit_message demo_url)) /\
  get_page E demo_url true true st1 =
    (Raise (JSONDecodeError (lit "Expecting value")),
     logged st1 INFO (hit_message demo_url)) /\
  forall as_json2,
    (retrievals (trace (world (snd (get_page E demo_url as_json2 true st1))))
     <= retrievals (trace (world st)) + 1)%nat.
Proof.
  intros E st st1.
  destruct (get_page_twice_retrieves_once E demo_url false st (lit "hello") st1
              eq_refl) as (raw & Hc & Hraw & Htext & Hjson & Hn).
  cbv beta iota in Hraw. subst raw. auto.
Defined.

Lemma get_page_memoizes_witness :
  let E := sample_env no_json online online false in
  let st := sample_state false false ∅ in
  let st1 := snd (get_page E demo_url false false st) in
  cache (self st1) !! demo_url = Some (lit "live") /\
  get_page E demo_url false true st1 =
    (Ok (lit "live"), logged st1 INFO (hit_message demo_url)) /\
  get_page E demo_url true true st1 =
    (Raise (JSONDecodeError (lit "Expecting value")),
     logged st1 INFO (hit_message demo_url)).
Proof.
  intros E st st1.
  destruct (get_page_memoizes E demo_url false false st (lit "live") st1 eq_refl)
    as (raw & Hc & Hmiss & _ & Htext & Hjson).
  pose proof (Hmiss (or_introl eq_refl)) as Hraw.
  cbv beta iota in Hraw. subst raw. auto.
Defined.

(** C3 as stated fails: a page held in memory is returned although load
    mode is on and its fixture file does not exist. *)
Lemma load_miss_counterexample :
  ~ (forall (E : Env) (url : str) (as_json : bool) (st : State) (filename : str),
       load (self st) = true ->
       url_to_filename url = Ok filename ->
       files (world st) !! os_path_join (load_dir (self st)) filename = None ->
       exists msg, fst (get_page E url as_json true st) = Raise (CacheNotFoundError msg)).
Proof.
  intros H.
  destruct (H (sample_env no_json online online false) demo_url false warmed_up
              demo_filename eq_refl eq_refl eq_refl) as [msg Hmsg].
  vm_compute in Hmsg. discriminate Hmsg.
Qed.

Lemma load_miss_witness :
  let E := sample_env no_json online online false in
  let st := sample_state true false ∅ in
  let e := CacheNotFoundError (not_found_message demo_url demo_filename) in
  fst (get_page E demo_url false true st) = Raise e /\
  isinstance e cDownloadError = true /\ isinstance e cOSError = false.
Proof.
  intros E st e.
  exact (proj1 (load_miss_raises_CacheNotFound E demo_url false st demo_filename
                  eq_refl eq_refl eq_refl) eq_refl).
Defined.


Lemma json_rpc_post_dry_run_witness :
  let E := sample_env no_json online online false in
  let st := sample_state false true ∅ in
  json_rpc_post E (lit "/jsonrpc.cgi") (lit "Bug.update") JNull st =
    (Ok (JObj []),
     logged st WARNING (dry_run_message E (lit "/jsonrpc.cgi") (lit "Bug.update") JNull)).
Proof.
  intros E st.
  exact (json_rpc_post_dry_run E (lit "/jsonrpc.cgi") (lit "Bug.update") JNull st eq_refl).
Defined.

Lemma tls_failure_witness :
  let E := sample_env no_json untrusted online false in
  let st := sample_state false false ∅ in
  fst (_get E demo_url false st) = Raise tls_error /\
  isinstance tls_error cDownloadError = false.
Proof.
  intros E st.
  exact (proj1 (tls_failure_without_introspection_reraised E demo_url false st
                  tls_error eq_refl eq_refl) eq_refl).
Defined.

Example tls_failure_with_introspection :
  fst (_get (sample_env no_json untrusted online true) demo_url false
         (sample_state false false ∅)) =
  Raise (DownloadError
           (certificate_message (lit "openqa.opensuse.org") (lit "Example CA")
              (lit "AB:CD") (lit "AB:CD"))).
Proof. reflexivity. Qed.

(** The three replies of the specification: code 101, another code, and
    [error] being null. *)
Lemma json_rpc_get_witness :
  let E := sample_env canned_replies online online false in
  let st raw := with_entry (sample_state false false ∅) rpc_target raw in
  let call raw := fst (json_rpc_get E rpc_url rpc_method rpc_params true (st raw)) in
  call (lit "not found") =
    Raise (BugNotFoundError rpc_get_url_sample (JInt 101)
             (JStr (lit "Bug #42 not found"))) /\
  call (lit "internal") =
    Raise (BugzillaError rpc_get_url_sample (JInt 500) (JStr (lit "internal"))) /\
  call (lit "fine") = Ok (JObj no_error).
Proof.
  intros E st call.
  pose (after raw := snd (get_json E rpc_target true (st raw))).
  split; [|split].
  - exact (f_equal fst
             (proj1 (json_rpc_get_error_field E rpc_url rpc_method rpc_params true
                       (st (lit "not found")) rpc_get_url_sample
                       (bug_error 101 (lit "Bug #42 not found"))
                       (after (lit "not found")) eq_refl eq_refl))).
  - exact (f_equal fst
             (proj1 (json_rpc_get_error_field E rpc_url rpc_method rpc_params true
                       (st (lit "internal")) rpc_get_url_sample
                       (bug_error 500 (lit "internal"))
                       (after (lit "internal")) eq_refl eq_refl))).
  - exact (f_equal fst
             (proj1 (json_rpc_get_error_field E rpc_url rpc_method rpc_params true
                       (st (lit "fine")) rpc_get_url_sample no_error
                       (after (lit "fine")) eq_refl eq_refl))).
Defined.

Lemma json_rpc_post_witness :
  let E := sample_env no_json online flaky false in
  let st := sample_state false false ∅ in
  let out := json_rpc_post E rpc_url (lit "Bug.update") rpc_params st in
  count_posts (trace (world (snd out))) = 3%nat /\ fst out = Ok (JObj []).
Proof.
  intros E st out.
  assert (Hk : connection_errors
            (fun j => requests_post E (clock (world st) + j)
                        (lit "http://openqa.opensuse.org/jsonrpc.cgi")
                        (json_dumps E (JObj [(lit "method", JStr (lit "Bug.update"));
                                             (lit "params", JArr [rpc_params])]))
                        (auth (self st)) (post_headers (self st))) 2).
  { intros j Hj. exists refused. destruct j as [|[|j]]; [split; reflexivity ..|lia]. }
  exact (proj1 (proj2 (proj2 (json_rpc_post_retry_budget E rpc_url (lit "Bug.update")
                                rpc_params st eq_refl) 2%nat Hk)
                        ltac:(lia))
           (page (lit "{}")) eq_refl).
Defined.


Example rpc_get_url_key_order :
  rpc_get_url python_env rpc_url rpc_method params_ab =
    Ok (lit "http://dummy/jsonrpc.cgi?method=Bug.get&params=%5B%7B%22a%22%3A+1%2C+%22b%22%3A+2%7D%5D") /\
  rpc_get_url python_env rpc_url rpc_method params_ba =
    Ok (lit "http://dummy/jsonrpc.cgi?method=Bug.get&params=%5B%7B%22b%22%3A+2%2C+%22a%22%3A+1%7D%5D").
Proof. split; reflexivity. Qed.


(** * Further properties of the code *)

#[global] Instance same_self_refl : Reflexive same_self.
Proof. intros st. reflexivity. Qed.
#[global] Instance same_self_trans : Transitive same_self.
Proof. unfold same_self. intros a b c H1 H2. congruence. Qed.
#[global] Instance same_files_refl : Reflexive same_files.
Proof. intros st. reflexivity. Qed.
#[global] Instance same_files_trans : Transitive same_files.
Proof. unfold same_files. intros a b c H1 H2. congruence. Qed.
#[global] Instance only_events_refl P : Reflexive (only_events P).
Proof. intros st. exists []. rewrite app_nil_r. split; reflexivity. Qed.
#[global] Instance only_events_trans P : Transitive (only_events P).
Proof.
  intros a b c (e1 & H1 & P1) (e2 & H2 & P2). exists (e1 ++ e2).
  rewrite H2, H1, app_assoc, forallb_app, P1, P2. split; reflexivity.
Qed.

Section Respects.
Context {R : State -> State -> Prop}.

Lemma respects_ret `{!Reflexive R} {A} (a : A) : respects R (ret a).
Proof. intros st r st' [= <- <-]. reflexivity. Qed.

Lemma respects_raise `{!Reflexive R} {A} e : respects R (@raise A e).
Proof. intros st r st' [= <- <-]. reflexivity. Qed.

Lemma respects_lift `{!Reflexive R} {A} (x : result A) : respects R (lift x).
Proof. intros st r st' [= <- <-]. reflexivity. Qed.

Lemma respects_get_self `{!Reflexive R} : respects R get_self.
Proof. intros st r st' [= <- <-]. reflexivity. Qed.

Lemma respects_bind `{!Transitive R} {A B} (m : M A) (k : A -> M B) :
  respects R m -> (forall a, respects R (k a)) -> respects R (bind m k).
Proof.
  intros Hm Hk st r st'. unfold bind.
  destruct (m st) as [[a|e] st1] eqn:E1; intros H.
  - etransitivity; [apply (Hm _ _ _ E1)|apply (Hk a _ _ _ H)].
  - injection H as <- <-. apply (Hm _ _ _ E1).
Qed.

Lemma respects_catch `{!Transitive R} {A} (m : M A) (h : exn -> M A) :
  respects R m -> (forall e, respects R (h e)) -> respects R (catch m h).
Proof.
  intros Hm Hh st r st'. unfold catch.
  destruct (m st) as [[a|e] st1] eqn:E1; intros H.
  - injection H as <- <-. apply (Hm _ _ _ E1).
  - etransitivity; [apply (Hm _ _ _ E1)|apply (Hh e _ _ _ H)].
Qed.
End Respects.

Lemma same_self_emit ev : respects same_self (emit ev).
Proof. intros st r st' [= <- <-]. reflexivity. Qed.
Lemma same_self_tick : respects same_self tick.
Proof. intros st r st' [= <- <-]. reflexivity. Qed.
Lemma same_self_set_file p d : respects same_self (set_file p d).
Proof. intros st r st' [= <- <-]. reflexivity. Qed.

Lemma same_files_emit ev : respects same_files (emit ev).
Proof. intros st r st' [= <- <-]. reflexivity. Qed.
Lemma same_files_tick : respects same_files tick.
Proof. intros st r st' [= <- <-]. reflexivity. Qed.
Lemma same_files_cache_store u r : respects same_files (cache_store u r).
Proof. intros st x st' [= <- <-]. reflexivity. Qed.

Lemma only_events_emit (P : event -> bool) ev :
  P ev = true -> respects (only_events P) (emit ev).
Proof.
  intros HP st r st' [= <- <-]. exists [ev]. cbn. rewrite HP. split; reflexivity.
Qed.
Lemma only_events_silent P st st' :
  trace (world st') = trace (world st) -> only_events P st st'.
Proof. intros H. exists []. rewrite app_nil_r. split; [exact H|reflexivity]. Qed.
Lemma only_events_tick P : respects (only_events P) tick.
Proof. intros st r st' [= <- <-]. apply only_events_silent. reflexivity. Qed.
Lemma only_events_set_file P p d : respects (only_events P) (set_file p d).
Proof. intros st r st' [= <- <-]. apply only_events_silent. reflexivity. Qed.
Lemma only_events_cache_store P u r : respects (only_events P) (cache_store u r).
Proof. intros st x st' [= <- <-]. apply only_events_silent. reflexivity. Qed.

(** Decomposition of a computation along its binds, handlers and
    branches; [prim] closes the primitive steps. *)
Ltac respects_with prim :=
  repeat first
    [ apply respects_ret | apply respects_raise | apply respects_lift
    | apply respects_get_self
    | progress unfold log_info, log_warning, log_error, first_of
    | prim
    | apply respects_bind; [|intros ?]
    | apply respects_catch; [|intros ?]
    | match goal with
      | |- respects _ (if ?c then _ else _) => destruct c
      | |- respects _ (match ?x with _ => _ end) => destruct x
      | |- respects _ (let _ := _ in _) => cbv zeta
      end ].

Ltac self_prim :=
  first [ apply same_self_emit | apply same_self_tick | apply same_self_set_file ].
Ltac files_prim :=
  first [ apply same_files_emit | apply same_files_tick | apply same_files_cache_store ].
Ltac events_prim :=
  first [ apply only_events_tick | apply only_events_set_file
        | apply only_events_cache_store
        | apply only_events_emit; reflexivity ].

Section Frames.
Variable E : Env.

Lemma same_self_read_file p : respects same_self (read_file p).
Proof.
  unfold read_file. apply respects_bind; [apply same_self_emit|]. intros _ st r st'.
  destruct (files (world st) !! p) as [[?|?]|]; intros [= <- <-]; reflexivity.
Qed.

Lemma same_self_write_file p raw : respects same_self (write_file p raw).
Proof.
  unfold write_file. apply respects_bind; [apply same_self_emit|]. intros _.
  apply respects_bind; [intros st r st' [= <- <-]; reflexivity|]. intros st0.
  respects_with self_prim.
Qed.

Lemma same_self__get url as_json : respects same_self (_get E url as_json).
Proof. unfold _get, _decode_content. respects_with self_prim. Qed.

Lemma same_self_post_attempts b u d tries :
  respects same_self (post_attempts E b u d tries).
Proof.
  induction tries as [|i rest IH]; cbn [post_attempts]; [apply respects_ret|].
  apply respects_catch; [respects_with self_prim|].
  intros e. destruct (isinstance e (cRequests ConnectionError)); [|apply respects_raise].
  apply respects_bind; [apply same_self_emit|]. intros _. exact IH.
Qed.

Lemma same_files_post_attempts b u d tries :
  respects same_files (post_attempts E b u d tries).
Proof.
  induction tries as [|i rest IH]; cbn [post_attempts]; [apply respects_ret|].
  apply respects_catch; [respects_with files_prim|].
  intros e. destruct (isinstance e (cRequests ConnectionError)); [|apply respects_raise].
  apply respects_bind; [apply same_files_emit|]. intros _. exact IH.
Qed.

(** X15.  [json_rpc_post] leaves the instance, its cache and headers
    included, and all files as they are, in either mode and whatever the
    outcome. *)
Theorem json_rpc_post_keeps_instance_and_files url method params st :
  self (snd (json_rpc_post E url method params st)) = self st /\
  files (world (snd (json_rpc_post E url method params st))) = files (world st).
Proof.
  split.
  - assert (H : respects same_self (json_rpc_post E url method params)).
    { unfold json_rpc_post. apply respects_bind; [apply respects_get_self|].
      intros b. destruct (dry_run b); [respects_with self_prim|].
      apply respects_bind; [apply respects_lift|]. intros absolute_url.
      cbv zeta. apply respects_bind; [apply same_self_post_attempts|].
      intros o. respects_with self_prim. }
    apply (H st (fst (json_rpc_post E url method params st))).
    destruct (json_rpc_post E url method params st); reflexivity.
  - assert (H : respects same_files (json_rpc_post E url method params)).
    { unfold json_rpc_post. apply respects_bind; [apply respects_get_self|].
      intros b. destruct (dry_run b); [respects_with files_prim|].
      apply respects_bind; [apply respects_lift|]. intros absolute_url.
      cbv zeta. apply respects_bind; [apply same_files_post_attempts|].
      intros o. respects_with files_prim. }
    apply (H st (fst (json_rpc_post E url method params st))).
    destruct (json_rpc_post E url method params st); reflexivity.
Qed.

End Frames.

Lemma respects_run {A} R (m : M A) st : respects R m -> R st (snd (m st)).
Proof. intros H. apply (H st (fst (m st))). destruct (m st); reflexivity. Qed.

Section Frames2.
Variable E : Env.

Lemma same_files_read_file p : respects same_files (read_file p).
Proof.
  unfold read_file. apply respects_bind; [apply same_files_emit|]. intros _ st r st'.
  destruct (files (world st) !! p) as [[?|?]|]; intros [= <- <-]; reflexivity.
Qed.

Lemma only_events_read_file P p :
  P (DiskRead p) = true -> respects (only_events P) (read_file p).
Proof.
  intros HP. unfold read_file. apply respects_bind; [apply only_events_emit, HP|].
  intros _ st r st'.
  destruct (files (world st) !! p) as [[?|?]|]; intros [= <- <-];
    apply only_events_silent; reflexivity.
Qed.

Lemma only_events_write_file P p raw :
  P (DiskWrite p) = true -> respects (only_events P) (write_file p raw).
Proof.
  intros HP. unfold write_file. apply respects_bind; [apply only_events_emit, HP|].
  intros _. apply respects_bind.
  { intros st r st' [= <- <-]. apply only_events_silent. reflexivity. }
  intros st0. respects_with events_prim.
Qed.

Lemma same_files__get url as_json : respects same_files (_get E url as_json).
Proof. unfold _get, _decode_content. respects_with files_prim. Qed.

Lemma only_events__get P url as_json :
  (forall u, P (NetGet u) = true) -> (forall h, P (CertProbe h) = true) ->
  (forall l m, P (Log l m) = true) ->
  respects (only_events P) (_get E url as_json).
Proof.
  intros Hg Hc Hl. unfold _get, _decode_content.
  respects_with ltac:(first [ apply only_events_tick
                            | apply only_events_emit; first [apply Hg|apply Hc|apply Hl] ]).
Qed.

Lemma same_files_load_fixture b url fn : respects same_files (load_fixture b url fn).
Proof.
  unfold load_fixture. apply respects_catch; [apply same_files_read_file|].
  intros e. respects_with files_prim.
Qed.

Lemma only_events_load_fixture P b url fn :
  (forall p, P (DiskRead p) = true) -> (forall l m, P (Log l m) = true) ->
  respects (only_events P) (load_fixture b url fn).
Proof.
  intros Hr Hl. unfold load_fixture.
  apply respects_catch; [apply only_events_read_file, Hr|].
  intros e.
  respects_with ltac:(apply only_events_emit; apply Hl).
Qed.

Lemma only_events_persist P b url fn raw :
  (forall p, P (DiskWrite p) = true) -> (forall l m, P (Log l m) = true) ->
  respects (only_events P) (persist b url fn raw).
Proof.
  intros Hw Hl. unfold persist. destruct (save b); [|apply respects_ret].
  apply respects_bind; [apply only_events_emit, Hl|]. intros _.
  apply only_events_write_file, Hw.
Qed.

(** In load mode, with caching, nothing but the disk and the log is used. *)
Lemma get_page_miss_offline url as_json b :
  load b = true ->
  respects (only_events not_network) (get_page_miss E url as_json true b).
Proof.
  intros Hl. unfold get_page_miss, resolve. rewrite Hl. cbn [andb].
  apply respects_bind; [apply respects_lift|]. intros fn.
  apply respects_bind.
  { apply respects_bind; [apply only_events_emit; reflexivity|]. intros _.
    apply respects_bind; [|intros ?; apply respects_lift].
    apply only_events_load_fixture; reflexivity. }
  intros body. cbv zeta.
  apply respects_bind; [apply only_events_persist; reflexivity|]. intros _.
  apply respects_bind; [apply only_events_cache_store|]. intros _. apply respects_ret.
Qed.

Lemma get_page_as_miss_or_hit url as_json use_cache st :
  (exists hit, use_cache = true /\ cache (self st) !! url = Some hit /\
     get_page E url as_json use_cache st =
       (loads_if E as_json hit, logged st INFO (hit_message url))) \/
  ((use_cache = false \/ cache (self st) !! url = None) /\
   get_page E url as_json use_cache st =
     get_page_miss E url as_json use_cache (self st) st).
Proof.
  destruct use_cache.
  - destruct (cache (self st) !! url) as [hit|] eqn:Hc.
    + left. exists hit. repeat split; try assumption. apply get_page_hit. exact Hc.
    + right. split; [auto|]. apply get_page_miss_eq. auto.
  - right. split; [auto|]. apply get_page_miss_eq. auto.
Qed.

Lemma only_events_logged P st l msg :
  P (Log l msg) = true -> only_events P st (logged st l msg).
Proof. intros HP. exists [Log l msg]. cbn. rewrite HP. split; reflexivity. Qed.

(** X8.  In load mode a [get_page] with caching makes no network request,
    whether the fixture is there or not. *)
Theorem get_page_load_mode_stays_offline url as_json st :
  load (self st) = true ->
  exists evs,
    trace (world (snd (get_page E url as_json true st))) = trace (world st) ++ evs /\
    forallb not_network evs = true.
Proof.
  intros Hl.
  destruct (get_page_as_miss_or_hit url as_json true st)
    as [(hit & _ & _ & ->)|[_ ->]].
  - apply (only_events_logged not_network). reflexivity.
  - apply (respects_run (only_events not_network)).
    apply get_page_miss_offline. exact Hl.
Qed.

(** X10.  Outside save mode [get_page] leaves every file as it is. *)
Theorem get_page_without_save_keeps_files url as_json use_cache st :
  save (self st) = false ->
  files (world (snd (get_page E url as_json use_cache st))) = files (world st).
Proof.
  intros Hs.
  destruct (get_page_as_miss_or_hit url as_json use_cache st)
    as [(hit & _ & _ & ->)|[_ ->]]; [reflexivity|].
  apply (respects_run same_files).
  unfold get_page_miss, resolve, persist. rewrite Hs.
  apply respects_bind; [apply respects_lift|]. intros fn.
  apply respects_bind.
  { destruct (load (self st) && use_cache).
    - apply respects_bind; [apply same_files_emit|]. intros _.
      apply respects_bind; [apply same_files_load_fixture|intros ?; apply respects_lift].
    - apply respects_bind; [apply respects_lift|]. intros absolute_url.
      apply same_files__get. }
  intros body. respects_with files_prim.
Qed.

End Frames2.

Lemma begins_with_then ev P a b c :
  begins_with ev a b -> only_events P b c -> begins_with ev a c.
Proof.
  intros (e1 & H1) (e2 & H2 & _). exists (e1 ++ e2).
  rewrite H2, H1, <- app_assoc. reflexivity.
Qed.

Lemma respects_bind_then {A B} (S T : State -> State -> Prop)
    (m : M A) (k : A -> M B) :
  (forall a b c, S a b -> T b c -> S a c) ->
  respects S m -> (forall a, respects T (k a)) -> respects S (bind m k).
Proof.
  intros HST Hm Hk st r st'. unfold bind.
  destruct (m st) as [[a|e] st1] eqn:E1; intros H.
  - eapply HST; [apply (Hm _ _ _ E1)|apply (Hk a _ _ _ H)].
  - injection H as <- <-. apply (Hm _ _ _ E1).
Qed.

Lemma respects_catch_then {A} (S T : State -> State -> Prop)
    (m : M A) (h : exn -> M A) :
  (forall a b c, S a b -> T b c -> S a c) ->
  respects S m -> (forall e, respects T (h e)) -> respects S (catch m h).
Proof.
  intros HST Hm Hh st r st'. unfold catch.
  destruct (m st) as [[a|e] st1] eqn:E1; intros H.
  - injection H as <- <-. apply (Hm _ _ _ E1).
  - eapply HST; [apply (Hm _ _ _ E1)|apply (Hh e _ _ _ H)].
Qed.

Lemma respects_bind_get_self {B} (S : State -> State -> Prop) (k : Browser -> M B) :
  (forall b, respects S (k b)) -> respects S (bind get_self k).
Proof. intros Hk st r st' H. apply (Hk (self st) st r st'). exact H. Qed.

Lemma begins_with_emit ev : respects (begins_with ev) (emit ev).
Proof. intros st r st' [= <- <-]. exists []. reflexivity. Qed.

Lemma bind_lift_ok {A B} (a : A) (k : A -> M B) st :
  bind (lift (Ok a)) k st = k a st.
Proof. reflexivity. Qed.

Section Live.
Variable E : Env.

Lemma respects_bind_lift_ok {A B} (S : State -> State -> Prop) (a : A)
    (k : A -> M B) :
  respects S (k a) -> respects S (bind (lift (Ok a)) k).
Proof. intros Hk st r st' H. apply (Hk st r st'). exact H. Qed.

(** Once the URL is parsed, the first thing [_get] does is the request. *)
Lemma _get_begins_with_request url as_json parsed_url :
  urlparse E url = Ok parsed_url ->
  respects (begins_with (NetGet url)) (_get E url as_json).
Proof.
  intros Hp. unfold _get. apply respects_bind_get_self. intros b.
  rewrite Hp. apply respects_bind_lift_ok. cbv zeta.
  apply (respects_bind_then _ (only_events any_event)); [apply begins_with_then| |].
  - apply (respects_catch_then _ (only_events any_event)); [apply begins_with_then| |].
    + apply (respects_bind_then _ (only_events any_event)); [apply begins_with_then| |].
      * apply begins_with_emit.
      * intros _. respects_with events_prim.
    + intros e. respects_with events_prim.
  - intros r. unfold _decode_content. respects_with events_prim.
Qed.

(** X9.  With caching switched off [get_page] passes by the in-memory cache
    and the load directory, even in load mode: it reads no file; when the
    URL cannot be joined to the root or cannot be parsed, that error is
    raised and nothing else happens; otherwise the first thing it does is
    to send the GET request for the absolute URL. *)
Theorem get_page_uncached_goes_to_network url as_json st filename :
  url_to_filename url = Ok filename ->
  let out := get_page E url as_json false st in
  (exists evs, trace (world (snd out)) = trace (world st) ++ evs /\
               forallb not_disk_read evs = true) /\
  match join_root E (root_url (self st)) url with
  | Raise e => out = (Raise e, st)
  | Ok absolute_url =>
    match urlparse E absolute_url with
    | Raise e => out = (Raise e, st)
    | Ok _ =>
      exists evs,
        trace (world (snd out)) = trace (world st) ++ NetGet absolute_url :: evs
    end
  end.
Proof.
  intros Hf out. subst out. rewrite get_page_miss_eq by auto.
  unfold get_page_miss, resolve. rewrite andb_false_r, Hf, bind_lift_ok. split.
  - apply (respects_run (only_events not_disk_read)).
    apply respects_bind.
    { apply respects_bind; [apply respects_lift|]. intros absolute_url.
      apply only_events__get; reflexivity. }
    intros body. cbv zeta.
    apply respects_bind; [apply only_events_persist; reflexivity|]. intros _.
    respects_with events_prim.
  - destruct (join_root E (root_url (self st)) url) as [absolute_url|e];
      [|reflexivity].
    destruct (urlparse E absolute_url) as [parsed_url|e] eqn:Hp.
    + apply (respects_run (begins_with (NetGet absolute_url))).
      apply (respects_bind_then _ (only_events any_event)); [apply begins_with_then| |].
      * apply respects_bind_lift_ok.
        apply (_get_begins_with_request absolute_url as_json parsed_url Hp).
      * intros body. cbv zeta.
        apply respects_bind; [apply only_events_persist; reflexivity|]. intros _.
        respects_with events_prim.
    + unfold bind, lift, _get, get_self. rewrite Hp. reflexivity.
Qed.

End Live.

Section Instance.
Variable E : Env.

Lemma same_self_resolve b url fn as_json use_cache :
  respects same_self (resolve E b url fn as_json use_cache).
Proof.
  intros st r st' H. apply (uses_resolve E b url fn as_json use_cache st r st' H).
Qed.

Lemma same_self_persist b url fn raw : respects same_self (persist b url fn raw).
Proof. intros st r st' H. apply (uses_persist b url fn raw st r st' H). Qed.

(** A call that raises has not touched the instance. *)
Lemma get_page_miss_raise url as_json use_cache b st e st1 :
  get_page_miss E url as_json use_cache b st = (Raise e, st1) ->
  self st1 = self st.
Proof.
  unfold get_page_miss. intros H.
  apply bind_inv in H as [(fn & s0 & H0 & H)|(e0 & H0 & _)].
  2:{ injection H0 as _ <-. reflexivity. }
  injection H0 as _ <-.
  apply bind_inv in H as [(body & s1 & H1 & H)|(e1 & H1 & _)].
  2:{ apply (same_self_resolve _ _ _ _ _ _ _ _ H1). }
  apply same_self_resolve in H1. cbv zeta in H.
  apply bind_inv in H as [(u & s2 & H2 & H)|(e2 & H2 & _)].
  2:{ apply same_self_persist in H2. unfold same_self in *. congruence. }
  unfold bind, cache_store, ret in H. discriminate H.
Qed.

(** X6.  A [get_page] that raises leaves the instance, the in-memory cache
    included, exactly as it was. *)
Theorem get_page_failure_memoizes_nothing url as_json use_cache st e st1 :
  get_page E url as_json use_cache st = (Raise e, st1) ->
  self st1 = self st.
Proof.
  intros H.
  destruct (get_page_as_miss_or_hit E url as_json use_cache st)
    as [(hit & _ & _ & Hh)|[_ Hm]].
  - rewrite Hh in H. injection H as _ <-. reflexivity.
  - rewrite Hm in H. apply get_page_miss_raise in H. exact H.
Qed.

(** X7.  [get_page] never changes the configuration of the instance, and
    in the cache it touches no entry but the one of its own URL. *)
Theorem get_page_touches_only_its_entry url as_json use_cache st :
  let b := self st in
  let b' := self (snd (get_page E url as_json use_cache st)) in
  (save b', load b', load_dir b', save_dir b', dry_run b', root_url b', auth b',
   headers b')
  = (save b, load b, load_dir b, save_dir b, dry_run b, root_url b, auth b,
     headers b) /\
  forall other, other <> url -> cache b' !! other = cache b !! other.
Proof.
  intros b b'. subst b b'.
  destruct (get_page E url as_json use_cache st) as [[body|e] st1] eqn:H; cbn [snd].
  - apply get_page_post in H as [_ Hb].
    destruct (Hb body eq_refl) as (raw & -> & _). cbn. split; [reflexivity|].
    intros other Hne. apply lookup_insert_ne. congruence.
  - destruct (get_page_as_miss_or_hit E url as_json use_cache st)
      as [(hit & _ & _ & Hh)|[_ Hm]].
    + rewrite Hh in H. injection H as _ <-. split; reflexivity.
    + rewrite Hm in H. apply get_page_miss_raise in H. rewrite H.
      split; reflexivity.
Qed.

End Instance.

Lemma utf8_strict_round_trip s data :
  encodable s = true -> Utf8.encode s = Ok data ->
  Utf8.decode Utf8.Strict data = Ok s.
Proof.
  intros He Hd. destruct (scan_encode s He) as (bs & Hbs & _ & Hscan).
  rewrite Hbs in Hd. injection Hd as <-.
  unfold Utf8.decode. rewrite Hscan. apply handle_somes.
Qed.

Lemma write_file_ok p raw st u st' :
  write_file p raw st = (Ok u, st') ->
  exists data, Utf8.encode raw = Ok data /\ files (world st') !! p = Some (inr data).
Proof.
  unfold write_file, bind, emit. cbn.
  destruct (files (world st) !! p) as [[errno|old]|]; cbn;
    try discriminate;
    unfold bind, set_file, lift; cbn;
    (destruct (Utf8.encode raw) as [data|e]; [|discriminate]);
    intros [= _ <-]; exists data; cbn; (split; [reflexivity|apply lookup_insert_eq]).
Qed.

Section SaveLoad.
Variable E : Env.

Lemma get_page_miss_saved url as_json use_cache st body st1 filename :
  save (self st) = true ->
  url_to_filename url = Ok filename ->
  get_page_miss E url as_json use_cache (self st) st = (Ok body, st1) ->
  exists data,
    Utf8.encode (dumps_if E as_json body) = Ok data /\
    files (world st1) !! os_path_join (save_dir (self st)) filename = Some (inr data).
Proof.
  intros Hs Hf. unfold get_page_miss. rewrite Hf, bind_lift_ok. intros H.
  apply bind_inv in H as [(body' & s1 & H1 & H)|(e1 & _ & [=])].
  cbv zeta in H.
  apply bind_inv in H as [(u & s2 & H2 & H)|(e2 & _ & [=])].
  unfold persist in H2. rewrite Hs in H2.
  apply bind_inv in H2 as [(u' & s3 & _ & H2)|(e3 & _ & [=])].
  apply write_file_ok in H2 as (data & Hd & Hfile).
  unfold bind, cache_store, ret in H. cbn in H. injection H as <- <-.
  exists data. split; [exact Hd|exact Hfile].
Qed.

Lemma get_page_miss_loaded url as_json st filename data raw :
  load (self st) = true ->
  save (self st) = false ->
  url_to_filename url = Ok filename ->
  files (world st) !! os_path_join (load_dir (self st)) filename = Some (inr data) ->
  Utf8.decode Utf8.Strict data = Ok raw ->
  fst (get_page_miss E url as_json true (self st) st) = loads_if E as_json raw.
Proof.
  intros Hl Hs Hf Hfile Hd.
  unfold get_page_miss, resolve, load_fixture, read_file, persist.
  rewrite Hf, Hl, Hs. unfold bind, lift, catch, emit, log_info, cache_store, ret.
  cbn. rewrite Hfile, Hd. destruct (loads_if E as_json raw); reflexivity.
Qed.

(** X4.  What a browser in save mode retrieved and saved, a browser in load
    mode reading the same directory gets back without touching the
    network: the same text, or for JSON the decoding of the saved text. *)
Theorem save_then_load_round_trip url as_json use_cache st body st1 st2 filename :
  save (self st) = true ->
  (use_cache = false \/ cache (self st) !! url = None) ->
  get_page E url as_json use_cache st = (Ok body, st1) ->
  encodable (dumps_if E as_json body) = true ->
  url_to_filename url = Ok filename ->
  load (self st2) = true ->
  save (self st2) = false ->
  load_dir (self st2) = save_dir (self st) ->
  cache (self st2) !! url = None ->
  files (world st2) !! os_path_join (save_dir (self st)) filename
    = files (world st1) !! os_path_join (save_dir (self st)) filename ->
  fst (get_page E url as_json true st2) = loads_if E as_json (dumps_if E as_json body) /\
  exists evs,
    trace (world (snd (get_page E url as_json true st2))) = trace (world st2) ++ evs /\
    forallb not_network evs = true.
Proof.
  intros Hs Hmiss H He Hf Hl Hs2 Hdir Hc2 Hfiles.
  rewrite get_page_miss_eq in H by exact Hmiss.
  destruct (get_page_miss_saved url as_json use_cache st body st1 filename Hs Hf H)
    as (data & Hd & Hfile).
  rewrite (get_page_miss_eq E url as_json true st2) by auto. split.
  - apply (get_page_miss_loaded url as_json st2 filename data); try assumption.
    + rewrite Hdir, Hfiles. exact Hfile.
    + apply utf8_strict_round_trip; assumption.
  - apply (respects_run (only_events not_network)).
    apply get_page_miss_offline. exact Hl.
Qed.

(** X5.  In save mode, after a retrieval the file of the URL in the save
    directory holds the UTF-8 encoding of the very text that is memoized
    for the URL. *)
Theorem get_page_saves_what_it_memoizes url as_json use_cache st body st1 filename :
  save (self st) = true ->
  (use_cache = false \/ cache (self st) !! url = None) ->
  url_to_filename url = Ok filename ->
  get_page E url as_json use_cache st = (Ok body, st1) ->
  exists raw data,
    cache (self st1) !! url = Some raw /\
    Utf8.encode raw = Ok data /\
    files (world st1) !! os_path_join (save_dir (self st)) filename
      = Some (inr data).
Proof.
  intros Hs Hmiss Hf H. rewrite get_page_miss_eq in H by exact Hmiss.
  destruct (get_page_miss_saved url as_json use_cache st body st1 filename Hs Hf H)
    as (data & Hd & Hfile).
  apply get_page_miss_post in H as [_ Hb].
  exists (dumps_if E as_json body), data. split; [|split; assumption].
  rewrite (Hb body eq_refl). cbn. apply lookup_insert_eq.
Qed.

End SaveLoad.

Section Fetch.
Variable E : Env.

(** X11.  When the GET raises an exception of [requests] other than an
    [SSLError]: connection errors, proxy errors and connect timeouts become
    a [DownloadError] that names the URL and the 7 retries, a chunked
    encoding error becomes a [DownloadError], and every other class, read
    timeouts among them, reaches the caller as it is.  (A URL that
    [urlparse] rejects never gets as far as the GET.) *)
Theorem live_get_classifies_transport_errors url as_json st :
  match urlparse E url with
  | Raise e => _get E url as_json st = (Raise e, st)
  | Ok (scheme, netloc) =>
    forall c m,
      session_get E (clock (world st)) (scheme ++ lit "://")
        default_retries url (auth (self st)) 30 (headers (self st))
        = Raise (RequestsError c m) ->
      requests_class_eqb c SSLError = false ->
      fst (_get E url as_json st) =
        match c with
        | ConnectionError | ProxyError | ConnectTimeout =>
          Raise (DownloadError (lit "Request to " ++ url
                                ++ lit " was not successful after 7 retries: " ++ m))
        | ChunkedEncodingError =>
          Raise (DownloadError (lit "Request to " ++ url
                                ++ lit " was not successful: " ++ m))
        | _ => Raise (RequestsError c m)
        end
  end.
Proof.
  destruct (urlparse E url) as [[scheme netloc]|e0] eqn:Hparse.
  2:{ unfold _get, bind, get_self, lift. rewrite Hparse. reflexivity. }
  intros c m Hget Hc.
  unfold _get, bind, get_self, catch, emit, tick, lift, raise, log_warning. cbn.
  rewrite Hparse. cbn. rewrite Hget.
  destruct c; try discriminate Hc; try reflexivity.
  all: change (isinstance _ (cRequests SSLError)) with false;
       change (isinstance _ (cRequests ConnectionError)) with true; cbn;
       repeat (f_equal; try reflexivity); rewrite <- !app_assoc; reflexivity.
Qed.

(** X12.  When the GET is answered: a status from 400 to 599 raises
    [DownloadError]; otherwise the body is decoded as UTF-8, strictly, and
    returned, or parsed as JSON with a [JSONDecodeError] turned into a
    [DownloadError] that quotes the body.  (A URL that [urlparse] rejects
    never gets as far as the GET.) *)
Theorem live_get_on_response url as_json st :
  match urlparse E url with
  | Raise e => _get E url as_json st = (Raise e, st)
  | Ok (scheme, netloc) =>
    forall r,
      session_get E (clock (world st)) (scheme ++ lit "://")
        default_retries url (auth (self st)) 30 (headers (self st)) = Ok r ->
      fst (_get E url as_json st) =
        if ((400 <=? status_code r) && (status_code r <? 600))%Z then
          Raise (DownloadError (lit "Request to " ++ url ++ lit " failed: "
                                ++ status_line r))
        else
          match Utf8.decode Utf8.Strict (r_content r) with
          | Raise e => Raise e
          | Ok text =>
            match loads_if E as_json text with
            | Ok body => Ok body
            | Raise e =>
              if isinstance e cJSONDecodeError
              then Raise (DownloadError (undecodable_message url e text))
              else Raise e
            end
          end
  end.
Proof.
  destruct (urlparse E url) as [[scheme netloc]|e0] eqn:Hparse.
  2:{ unfold _get, bind, get_self, lift. rewrite Hparse. reflexivity. }
  intros r Hget.
  unfold _get, bind, get_self, catch, emit, tick, lift, raise, log_warning. cbn.
  rewrite Hparse. cbn. rewrite Hget. unfold raise_for_status.
  destruct ((400 <=? status_code r)%Z && (status_code r <? 600)%Z); cbn.
  - reflexivity.
  - destruct (Utf8.decode Utf8.Strict (r_content r)) as [text|e]; [|reflexivity].
    unfold _decode_content, catch, lift, bind, raise, log_warning, emit.
    destruct (loads_if E as_json text) as [body|e]; [reflexivity|].
    destruct (isinstance e cJSONDecodeError); reflexivity.
Qed.

End Fetch.

Lemma str_eqb_eq a b : str_eqb a b = true <-> a = b.
Proof.
  revert b. induction a as [|x a IH]; intros [|y b]; cbn; split; try congruence.
  - intros H. apply andb_true_iff in H as [H1 H2].
    apply N.eqb_eq in H1. apply IH in H2. congruence.
  - intros [= -> ->]. rewrite N.eqb_refl. cbn. apply IH. reflexivity.
Qed.

Lemma str_eqb_refl a : str_eqb a a = true.
Proof. apply str_eqb_eq. reflexivity. Qed.

Lemma str_eqb_neq a b : a <> b -> str_eqb a b = false.
Proof.
  intros H. destruct (str_eqb a b) eqn:Eq; [|reflexivity].
  apply str_eqb_eq in Eq. contradiction.
Qed.

Lemma dict_get_set_eq {V} (d : list (str * V)) k v :
  dict_get (dict_set d k v) k = Some v.
Proof.
  induction d as [|[k' v'] d IH]; cbn.
  - rewrite str_eqb_refl. reflexivity.
  - destruct (str_eqb k' k) eqn:Eq; cbn; rewrite Eq; [reflexivity|exact IH].
Qed.

Lemma dict_get_set_ne {V} (d : list (str * V)) k v k2 :
  k2 <> k -> dict_get (dict_set d k v) k2 = dict_get d k2.
Proof.
  intros Hne. induction d as [|[k' v'] d IH]; cbn.
  - rewrite str_eqb_neq by congruence. reflexivity.
  - destruct (str_eqb k' k) eqn:Eq; cbn.
    + apply str_eqb_eq in Eq. subst k'.
      rewrite (str_eqb_neq k k2) by congruence. reflexivity.
    + destruct (str_eqb k' k2); [reflexivity|exact IH].
Qed.

(** X19.  A new browser always carries the fixed [User-Agent], whatever
    headers it was given, keeps the other headers, and starts with an
    empty cache; the headers of a POST add the JSON content type and keep
    the [User-Agent]. *)
Theorem Browser_init_headers args root_url auth extra :
  let b := Browser_init args root_url auth extra in
  dict_get (headers b) (lit "User-Agent") = Some user_agent /\
  (forall name, name <> lit "User-Agent" ->
     dict_get (headers b) name = dict_get extra name) /\
  dict_get (post_headers b) (lit "content-type") = Some (lit "application/json") /\
  dict_get (post_headers b) (lit "User-Agent") = Some user_agent /\
  cache b = ∅.
Proof.
  cbn. repeat split.
  - apply dict_get_set_eq.
  - intros name Hne. apply dict_get_set_ne. exact Hne.
  - apply dict_get_set_eq.
  - unfold post_headers. cbn.
    rewrite dict_get_set_ne by (intros H; discriminate H). apply dict_get_set_eq.
Qed.

Section MoreFacts.
Variable E : Env.
Variable upper : str -> str.
Variable requests_request :
  nat -> str -> str -> str -> list (str * str) -> result Response.
Variable Soup : Type.
Variable BeautifulSoup : str -> str -> Soup.

(** X16.  In dry-run mode [json_rest] with a method other than GET sends
    nothing: it logs one warning and returns the empty mapping. *)
Theorem json_rest_dry_run url method data st :
  dry_run (self st) = true ->
  str_eqb (upper method) (lit "GET") = false ->
  json_rest E upper requests_request url method data st =
    (Ok (JObj []), logged st WARNING (dry_run_message E url method data)).
Proof.
  intros Hd Hm. unfold json_rest, bind, get_self. rewrite Hd.
  rewrite Hm. reflexivity.
Qed.

(** X17.  [json_rest] never changes the instance or a file and sends at
    most one request.  Outside dry-run mode, and for GET (in any letter
    case) also in dry-run mode, it logs nothing; when the URL cannot be
    joined to the root that error is raised and nothing is sent; otherwise
    exactly one request is sent, and an exception of that request reaches
    the caller as it is: it is neither retried nor turned into a
    [DownloadError]. *)
Theorem json_rest_sends_once url method data st :
  let out := json_rest E upper requests_request url method data st in
  self (snd out) = self st /\
  files (world (snd out)) = files (world st) /\
  (clock (world (snd out)) <= S (clock (world st)))%nat /\
  (dry_run (self st) = false \/ upper method = lit "GET" ->
   trace (world (snd out)) = trace (world st) /\
   match join_root E (root_url (self st)) url with
   | Raise e => out = (Raise e, st)
   | Ok absolute_url =>
     clock (world (snd out)) = S (clock (world st)) /\
     forall e,
       requests_request (clock (world st)) method absolute_url
         (json_dumps E data) (post_headers (self st)) = Raise e ->
       fst out = Raise e
   end).
Proof.
  intros out.
  assert (Hout : out =
    if dry_run (self st) && negb (str_eqb (upper method) (lit "GET"))
    then (Ok (JObj []), logged st WARNING (dry_run_message E url method data))
    else
      match join_root E (root_url (self st)) url with
      | Raise e => (Raise e, st)
      | Ok absolute_url =>
        (match requests_request (clock (world st)) method absolute_url
                 (json_dumps E data) (post_headers (self st)) with
         | Raise e => Raise e
         | Ok r =>
           match raise_for_status r with
           | Raise e => Raise e
           | Ok _ => match r_text r with [] => Ok JNull | _ => r_json r end
           end
         end, ticked st)
      end).
  { subst out. unfold json_rest, bind, get_self.
    destruct (dry_run (self st) && negb (str_eqb (upper method) (lit "GET")));
      [reflexivity|].
    unfold lift. destruct (join_root E (root_url (self st)) url) as [absolute_url|e0];
      [|reflexivity].
    cbv zeta. fold (post_headers (self st)). unfold tick, ret.
    cbn [clock world]. fold (ticked st).
    destruct (requests_request (clock (world st)) method absolute_url
                (json_dumps E data) (post_headers (self st))) as [r|e0];
      [|reflexivity].
    destruct (raise_for_status r); [destruct (r_text r)|]; reflexivity. }
  clearbody out. subst out.
  destruct (dry_run (self st) && negb (str_eqb (upper method) (lit "GET"))) eqn:Hc.
  - cbn. split; [reflexivity|]. split; [reflexivity|]. split; [lia|].
    intros [Hd|Hu]; exfalso.
    + rewrite Hd in Hc. discriminate Hc.
    + rewrite Hu, str_eqb_refl, andb_false_r in Hc. discriminate Hc.
  - destruct (join_root E (root_url (self st)) url) as [absolute_url|e0]; cbn.
    + split; [reflexivity|]. split; [reflexivity|]. split; [lia|].
      intros _. split; [reflexivity|]. split; [reflexivity|].
      intros e ->. reflexivity.
    + split; [reflexivity|]. split; [reflexivity|]. split; [lia|].
      intros _. split; reflexivity.
Qed.

End MoreFacts.

Import UrlParse.


Lemma quoted_name_facts b : b < 256 -> quoted_name_ok b = true.
Proof. apply (forallb_range quoted_name_ok 256). reflexivity. Qed.

Lemma replace_app old new a b :
  replace old new (a ++ b) = replace old new a ++ replace old new b.
Proof. unfold replace. apply map_app. Qed.

Lemma quoted_names bs :
  Forall (fun b => b < 256) bs ->
  forallb in_alphabet (replace (ord "/") (ord ":") (quoted bs)) = true.
Proof.
  unfold quoted. induction 1 as [|b t Hb Ht IH]; [reflexivity|].
  cbn [map concat]. rewrite replace_app, forallb_app, IH, andb_true_r.
  apply (quoted_name_facts b Hb).
Qed.

Lemma url_to_filename_quoted url :
  encodable url = true ->
  exists bs, Forall (fun b => b < 256) bs /\
    url_to_filename url = Ok (replace (ord "/") (ord ":") (quoted bs)).
Proof.
  intros He. destruct url as [|c t] eqn:Eu.
  - exists []. split; [constructor|reflexivity].
  - rewrite <- Eu in *. destruct (scan_encode url He) as (bs & Henc & Hb & _).
    exists bs. split; [exact Hb|].
    unfold url_to_filename, quote. rewrite Eu at 1. rewrite Henc.
    rewrite quote_from_bytes_default by exact Hb. reflexivity.
Qed.

Lemma alphabet_no_slash name :
  forallb in_alphabet name = true -> startswith (lit "/") name = false.
Proof.
  destruct name as [|c t]; [reflexivity|]. cbn [forallb]. intros H.
  apply andb_true_iff in H as [Hc _].
  change (startswith (lit "/") (c :: t)) with ((ord "/" =? c) && true).
  rewrite andb_true_r. apply N.eqb_neq. intros <-. discriminate Hc.
Qed.

(** X1.  The file name of an encodable URL is made of ASCII letters, digits
    and the characters [_.-~%:] only.  It holds no slash, so joining it to
    a directory appends it to the directory as one path component.  That
    component is empty, [.] or [..], and then stands for the directory
    itself or its parent and not for a file in it, exactly when the URL is
    that very string. *)
Theorem url_to_filename_is_a_file_name url :
  encodable url = true ->
  exists name,
    url_to_filename url = Ok name /\
    forallb in_alphabet name = true /\
    (forall dir,
       os_path_join dir name =
         if (match dir with [] => true | _ => false end) || endswith (lit "/") dir
         then dir ++ name else dir ++ lit "/" ++ name) /\
    (forall special, In special [[]; lit "."; lit ".."] ->
       name = special <-> url = special).
Proof.
  intros He. destruct (url_to_filename_quoted url He) as (bs & Hb & Hn).
  eexists. split; [exact Hn|].
  pose proof (quoted_names bs Hb) as Ha. split; [exact Ha|]. split.
  - intros dir. unfold os_path_join. rewrite (alphabet_no_slash _ Ha). reflexivity.
  - destruct (roundtrip_aux url He) as (name & Hn' & Hback).
    rewrite Hn in Hn'. injection Hn' as <-.
    intros special Hs.
    assert (Hfix : url_to_filename special = Ok special /\
                   filename_to_url special = Ok special).
    { destruct Hs as [<-|[<-|[<-|[]]]]; split; reflexivity. }
    destruct Hfix as [Hto Hfrom]. split.
    + intros Heq. rewrite Heq in Hback. congruence.
    + intros Heq. rewrite Heq in Hn. congruence.
Qed.

Lemma encode_char_surrogate c :
  Utf8.encode_char c = None <-> Utf8.is_surrogate c = true.
Proof.
  unfold Utf8.encode_char, Utf8.is_surrogate.
  destruct (N.ltb_spec c 0x80); [split; [discriminate|]|].
  { intros H'. apply andb_true_iff in H' as [H1 _]. apply N.leb_le in H1. lia. }
  destruct (N.ltb_spec c 0x800); [split; [discriminate|]|].
  { intros H'. apply andb_true_iff in H' as [H1 _]. apply N.leb_le in H1. lia. }
  destruct ((0xD800 <=? c) && (c <=? 0xDFFF)); [split; reflexivity|].
  destruct (c <? 0x10000); split; discriminate.
Qed.

Lemma encode_outcome s :
  match Utf8.encode s with
  | Ok _ => existsb Utf8.is_surrogate s = false
  | Raise e => e = UnicodeEncodeError /\ existsb Utf8.is_surrogate s = true
  end.
Proof.
  induction s as [|c t IH]; cbn [Utf8.encode existsb]; [reflexivity|].
  destruct (Utf8.encode_char c) as [bs|] eqn:Ec.
  - assert (Hs : Utf8.is_surrogate c = false).
    { destruct (Utf8.is_surrogate c) eqn:Hs; [|reflexivity].
      apply encode_char_surrogate in Hs. congruence. }
    rewrite Hs. cbn [orb]. destruct (Utf8.encode t); exact IH.
  - apply encode_char_surrogate in Ec. rewrite Ec. split; reflexivity.
Qed.

Lemma quote_from_bytes_total bs : exists q, quote_from_bytes bs (lit "/") = Ok q.
Proof.
  unfold quote_from_bytes. destruct bs as [|b t]; [eexists; reflexivity|].
  fold default_safe. fold (all_safe (b :: t)).
  destruct (all_safe (b :: t)) eqn:Hs; [|eexists; reflexivity].
  exists (b :: t). unfold Utf8.decode.
  rewrite scan_ascii by (apply all_safe_ascii; exact Hs). apply handle_somes.
Qed.

(** X2.  [url_to_filename] fails exactly on the URLs that hold a surrogate
    code point, and then with [UnicodeEncodeError]. *)
Theorem url_to_filename_fails_on_surrogates_only url :
  match url_to_filename url with
  | Ok _ => existsb Utf8.is_surrogate url = false
  | Raise e => e = UnicodeEncodeError /\ existsb Utf8.is_surrogate url = true
  end.
Proof.
  unfold url_to_filename, quote. destruct url as [|c t] eqn:Eu; [reflexivity|].
  rewrite <- Eu. pose proof (encode_outcome url) as H.
  destruct (Utf8.encode url) as [bs|e]; [|exact H].
  destruct (quote_from_bytes_total bs) as [q ->]. exact H.
Qed.

Lemma handle_replace_total items : exists s, Utf8.handle Utf8.Replace items = Ok s.
Proof.
  induction items as [|[c|] t [s IH]]; cbn; [eexists; reflexivity|..];
    rewrite IH; eexists; reflexivity.
Qed.

Lemma unquote_run_total run :
  forallb is_ascii run = true -> exists r, unquote_run Utf8.Replace run = Ok r.
Proof.
  intros Ha. unfold unquote_run. destruct run as [|c t] eqn:Er; [eexists; reflexivity|].
  rewrite <- Er in *. clear Er.
  assert (Hr : forallb is_ascii (rev run) = true).
  { rewrite forallb_forall in *. intros x Hx. apply Ha. apply in_rev. exact Hx. }
  unfold unquote_to_bytes. destruct (rev run) as [|c' t'] eqn:Err.
  - apply handle_replace_total.
  - rewrite <- Err in *. rewrite (encode_ascii _ Hr).
    destruct (split (ord "%") (rev run)) as [|b0 [|i items]];
      apply handle_replace_total.
Qed.

Lemma unquote_bits_total s : forall run,
  forallb is_ascii run = true ->
  exists r, unquote_bits Utf8.Replace run s = Ok r.
Proof.
  induction s as [|c t IH]; intros run Hrun; cbn [unquote_bits].
  - apply unquote_run_total. exact Hrun.
  - destruct (c <=? 0x7F) eqn:Hc.
    + apply IH. cbn [forallb]. unfold is_ascii at 1. rewrite Hc. exact Hrun.
    + destruct (unquote_run_total run Hrun) as [r ->].
      destruct (IH [] eq_refl) as [r' ->]. eexists. reflexivity.
Qed.

(** X3.  [filename_to_url] returns a URL for every name, also for names
    [url_to_filename] never makes. *)
Theorem filename_to_url_never_raises name :
  exists url, filename_to_url name = Ok url.
Proof.
  unfold filename_to_url, unquote.
  destruct (negb (contains (ord "%") _)); [eexists; reflexivity|].
  apply unquote_bits_total. reflexivity.
Qed.

#[global] Instance unchanged_refl : Reflexive unchanged.
Proof. intros st. reflexivity. Qed.
#[global] Instance unchanged_trans : Transitive unchanged.
Proof. unfold unchanged. intros a b c H1 H2. congruence. Qed.

Section More.
Variable E : Env.
Variable Soup : Type.
Variable BeautifulSoup : str -> str -> Soup.

(** A text page that [get_page] returns is the text it leaves in the cache. *)
Lemma get_page_text_cached url st markup st1 :
  get_page E url false true st = (Ok markup, st1) ->
  cache (self st1) !! url = Some markup.
Proof.
  intros H.
  destruct (get_page_as_miss_or_hit E url false true st)
    as [(hit & _ & Hc & Hh)|[_ Hm]].
  - rewrite Hh in H. injection H as <- <-. exact Hc.
  - rewrite Hm in H. apply get_page_miss_post in H as [_ Hb].
    rewrite (Hb markup eq_refl). cbn. apply lookup_insert_eq.
Qed.

(** X18.  After a successful [get_soup] a second one for the same URL gives
    the same soup from the in-memory cache, adding one log line and
    nothing else. *)
Theorem get_soup_twice url st soup st1 :
  get_soup E Soup BeautifulSoup url st = (Ok soup, st1) ->
  get_soup E Soup BeautifulSoup url st1 =
    (Ok soup, logged st1 INFO (hit_message url)).
Proof.
  destruct url as [|c t]; [discriminate|].
  unfold get_soup. intros H.
  apply bind_inv in H as [(markup & s & Hp & Hr)|(e & _ & [=])].
  injection Hr as <- <-.
  apply get_page_text_cached in Hp.
  unfold bind. rewrite (get_page_hit E (c :: t) false s markup Hp). reflexivity.
Qed.

Lemma inspect_unchanged get_url response : respects unchanged (inspect get_url response).
Proof. unfold inspect. respects_with fail. Qed.

Lemma json_rpc_get_eq url method params use_cache get_url st :
  rpc_get_url E url method params = Ok get_url ->
  json_rpc_get E url method params use_cache st =
  bind (get_json E (replace_str (lit "http://dummy") [] get_url) use_cache)
    (inspect get_url) st.
Proof. intros Hu. unfold json_rpc_get. rewrite Hu. reflexivity. Qed.

(** X14.  [json_rpc_get] changes the state only through its [get_json], also
    when it raises an API error; a repeated call with caching is answered
    from the in-memory cache and adds one log line. *)
Theorem json_rpc_get_memoizes_response url method params use_cache st get_url
    response st0 :
  rpc_get_url E url method params = Ok get_url ->
  let target := replace_str (lit "http://dummy") [] get_url in
  get_json E target use_cache st = (Ok response, st0) ->
  snd (json_rpc_get E url method params use_cache st) = st0 /\
  snd (json_rpc_get E url method params true st0)
    = logged st0 INFO (hit_message target).
Proof.
  intros Hu target Hg. rewrite !(json_rpc_get_eq _ _ _ _ get_url) by exact Hu.
  fold target. split.
  - unfold bind. rewrite Hg.
    apply (respects_run unchanged (inspect get_url response) st0).
    apply inspect_unchanged.
  - destruct (get_page_post E target true use_cache st _ _ Hg) as [_ Hb].
    destruct (Hb response eq_refl) as (raw & Hs & _).
    assert (Hc : cache (self st0) !! target = Some raw).
    { rewrite Hs. cbn. apply lookup_insert_eq. }
    unfold bind, get_json. rewrite (get_page_hit E target true st0 raw Hc).
    destruct (loads_if E true raw) as [response'|e]; [|reflexivity].
    apply (respects_run unchanged (inspect get_url response')).
    apply inspect_unchanged.
Qed.

(** X13.  A decoded response that is no object: a number, a boolean or null
    raises [TypeError]; a list or a string is returned unless it contains
    ["error"], in which case [TypeError] is raised as well. *)
Theorem json_rpc_get_non_object_response url method params use_cache st get_url
    response st0 :
  rpc_get_url E url method params = Ok get_url ->
  get_json E (replace_str (lit "http://dummy") [] get_url) use_cache st
    = (Ok response, st0) ->
  is_object response = false ->
  json_rpc_get E url method params use_cache st =
    (match response with
     | JArr items =>
       if existsb is_error_string items then Raise TypeError else Ok response
     | JStr s =>
       if is_substring (lit "error") s then Raise TypeError else Ok response
     | _ => Raise TypeError
     end, st0).
Proof.
  intros Hu Hg Hno. rewrite (json_rpc_get_eq _ _ _ _ get_url) by exact Hu.
  unfold bind at 1. rewrite Hg. unfold inspect, bind, lift, ret, raise.
  destruct response as [| | | |s|items|fields]; try reflexivity.
  - cbn. destruct (is_substring (lit "error") s); reflexivity.
  - cbn. fold is_error_string. destruct (existsb is_error_string items); reflexivity.
  - discriminate Hno.
Qed.

End More.

(** * The further properties at sample inputs *)

Lemma url_to_filename_name_witness :
  url_to_filename demo_url = Ok demo_filename /\
  forallb in_alphabet demo_filename = true /\
  os_path_join (lit "cache") demo_filename = lit "cache/" ++ demo_filename /\
  demo_filename <> lit "..".
Proof.
  destruct (url_to_filename_is_a_file_name demo_url eq_refl)
    as (name & Hn & Ha & Hj & Hs).
  injection Hn as <-. split; [reflexivity|]. split; [exact Ha|].
  split; [exact (Hj (lit "cache"))|].
  intros Hdots.
  apply (Hs (lit "..") ltac:(right; right; left; reflexivity)) in Hdots.
  discriminate Hdots.
Defined.

Lemma save_then_load_witness :
  fst (get_page plain_env demo_url false true replay_state) = Ok (lit "live") /\
  exists evs,
    trace (world (snd (get_page plain_env demo_url false true replay_state)))
      = trace (world replay_state) ++ evs /\
    forallb not_network evs = true.
Proof.
  apply (save_then_load_round_trip plain_env demo_url false true saving_state
           (lit "live") saved_state replay_state demo_filename
           eq_refl (or_intror eq_refl));
    vm_compute; reflexivity.
Defined.

Lemma get_page_saves_witness :
  exists raw data,
    cache (self saved_state) !! demo_url = Some raw /\
    Utf8.encode raw = Ok data /\
    files (world saved_state) !! os_path_join (save_dir (self saving_state)) demo_filename
      = Some (inr data).
Proof.
  apply (get_page_saves_what_it_memoizes plain_env demo_url false true saving_state
           (lit "live") saved_state demo_filename eq_refl (or_intror eq_refl) eq_refl).
  vm_compute. reflexivity.
Defined.

Lemma get_page_failure_witness :
  self (snd (get_page plain_env demo_url false true (sample_state true false ∅)))
  = self (sample_state true false ∅).
Proof.
  apply (get_page_failure_memoizes_nothing plain_env demo_url false true
           (sample_state true false ∅)
           (CacheNotFoundError (not_found_message demo_url demo_filename))).
  vm_compute. reflexivity.
Defined.

Lemma get_page_offline_witness :
  exists evs,
    trace (world (snd (get_page plain_env demo_url false true
                         (sample_state true false fixture))))
      = trace (world (sample_state true false fixture)) ++ evs /\
    forallb not_network evs = true.
Proof.
  exact (get_page_load_mode_stays_offline plain_env demo_url false
           (sample_state true false fixture) eq_refl).
Defined.

Lemma get_page_uncached_witness :
  let st := sample_state true false fixture in
  let st' := snd (get_page plain_env demo_url false false st) in
  (exists evs, trace (world st') = trace (world st) ++ evs /\
               forallb not_disk_read evs = true) /\
  (exists evs, trace (world st') = trace (world st) ++ NetGet demo_url :: evs).
Proof.
  exact (get_page_uncached_goes_to_network plain_env demo_url false
           (sample_state true false fixture) demo_filename eq_refl).
Defined.

Lemma get_page_keeps_files_witness :
  files (world (snd (get_page plain_env demo_url false true
                       (sample_state false false fixture))))
  = files (world (sample_state false false fixture)).
Proof.
  exact (get_page_without_save_keeps_files plain_env demo_url false true
           (sample_state false false fixture) eq_refl).
Defined.

Lemma live_get_timeout_witness :
  fst (_get (sample_env no_json timed_out online false) demo_url false
         (sample_state false false ∅))
  = Raise (RequestsError ReadTimeout (lit "Read timed out")).
Proof.
  exact (live_get_classifies_transport_errors (sample_env no_json timed_out online false)
           demo_url false (sample_state false false ∅) ReadTimeout
           (lit "Read timed out") eq_refl eq_refl).
Defined.

Lemma live_get_response_witness :
  fst (_get plain_env demo_url false (sample_state false false ∅)) = Ok (lit "live").
Proof.
  exact (live_get_on_response plain_env demo_url false (sample_state false false ∅)
           (page (lit "live")) eq_refl).
Defined.

Lemma json_rest_dry_run_witness :
  let st := sample_state false true ∅ in
  json_rest plain_env ascii_upper rest_refused rpc_url (lit "put") JNull st =
    (Ok (JObj []),
     logged st WARNING (dry_run_message plain_env rpc_url (lit "put") JNull)).
Proof.
  exact (json_rest_dry_run plain_env ascii_upper rest_refused rpc_url (lit "put") JNull
           (sample_state false true ∅) eq_refl eq_refl).
Defined.

Lemma json_rest_get_witness :
  let st := sample_state false true ∅ in
  let out := json_rest plain_env ascii_upper rest_refused rpc_url (lit "get") JNull st in
  trace (world (snd out)) = [] /\
  clock (world (snd out)) = 1%nat /\
  fst out = Raise refused.
Proof.
  intros st out.
  destruct (json_rest_sends_once plain_env ascii_upper rest_refused rpc_url (lit "get")
              JNull st) as (_ & _ & _ & H).
  destruct (H (or_intror eq_refl)) as (Ht & Hc & He).
  split; [exact Ht|]. split; [exact Hc|]. exact (He refused eq_refl).
Defined.

Lemma get_soup_twice_witness :
  let st := sample_state true false fixture in
  let st1 := snd (get_soup plain_env (list N) text_soup demo_url st) in
  get_soup plain_env (list N) text_soup demo_url st1 =
    (Ok (lit "hello"), logged st1 INFO (hit_message demo_url)).
Proof.
  intros st st1.
  apply (get_soup_twice plain_env (list N) text_soup demo_url st (lit "hello") st1).
  vm_compute. reflexivity.
Defined.

Lemma json_rpc_get_memoizes_witness :
  let E := sample_env canned_json online online false in
  let st := with_entry (sample_state false false ∅) rpc_target (lit "{}") in
  let st0 := snd (get_json E rpc_target true st) in
  snd (json_rpc_get E rpc_url rpc_method rpc_params true st) = st0 /\
  snd (json_rpc_get E rpc_url rpc_method rpc_params true st0)
    = logged st0 INFO (hit_message rpc_target).
Proof.
  intros E st st0.
  apply (json_rpc_get_memoizes_response E rpc_url rpc_method rpc_params true st
           rpc_get_url_sample (JObj bug_not_found) st0 eq_refl).
  vm_compute. reflexivity.
Defined.

Lemma json_rpc_get_null_witness :
  let E := sample_env null_json online online false in
  let st := with_entry (sample_state false false ∅) rpc_target (lit "null") in
  json_rpc_get E rpc_url rpc_method rpc_params true st =
    (Raise TypeError, snd (get_json E rpc_target true st)).
Proof.
  intros E st.
  apply (json_rpc_get_non_object_response E rpc_url rpc_method rpc_params true st
           rpc_get_url_sample JNull (snd (get_json E rpc_target true st)) eq_refl).
  - vm_compute. reflexivity.
  - reflexivity.
Defined.
